(** * ReTurni API gateway: authentication, rate limiting and proxying

    A shallow embedding of [services/shared/auth.py] and of the request
    pipeline of [services/api-gateway/main.py], with the properties of the
    gateway specification stated and settled against it.

    Python code that talks to Redis, reads the clock, logs or raises is
    embedded in a state-and-exception monad over a [world]: the clock, the
    Redis database, the health of the Redis connection, the log and the
    request counters. Time is counted in whole seconds. Redis and PyJWT are
    libraries: the commands and calls that the code uses are given their
    documented behaviour.

    Two clocks are read. The code reads [int(datetime.utcnow().timestamp())],
    which takes the naive UTC time for local time and so lies behind the
    seconds since the epoch by the offset of the host's zone; PyJWT stamps
    and checks [exp] in seconds since the epoch. The [clock] of a world is
    the reading of the code, and [UTC_OFFSET] of the environment is what
    must be added for the epoch. A Redis expiry is relative to the moment
    it is set and is kept on the scale of the [clock].

    The embedding comes first, then the notions that the statements use,
    then the lemmas and theorems. *)

From Stdlib Require Import ZArith Ascii String List Bool Lia ZifyBool.

From stdpp Require Import base decidable option numbers gmap strings pretty list.

Local Open Scope string_scope.

Local Open Scope Z_scope.

(** ** Python values *)

(** The JSON scalars that occur as JWT claims and as session attributes. *)
Inductive pyval : Type :=
| PNone
| PBool (b : bool)
| PInt (n : Z)
| PStr (s : string).

(** A Python [dict] with string keys. *)
Abbreviation pydict := (gmap string pyval).

(** Python truthiness, as used by [if x:], [not x] and [x or y]. *)
Definition truthy (v : pyval) : bool :=
  match v with
  | PNone => false
  | PBool b => b
  | PInt n => negb (n =? 0)
  | PStr s => negb (String.eqb s "")
  end.

(** Python [==] on these scalars: [bool] is a subtype of [int]. *)
Definition py_eq (a b : pyval) : bool :=
  match a, b with
  | PNone, PNone => true
  | PBool x, PBool y => Bool.eqb x y
  | PBool x, PInt n | PInt n, PBool x => n =? (if x then 1 else 0)
  | PInt n, PInt m => n =? m
  | PStr s, PStr t => String.eqb s t
  | _, _ => false
  end.

(** [d.get(k)]: [None] when the key is missing. *)
Definition py_get (d : pydict) (k : string) : pyval := default PNone (d !! k).

(** [s[:n]] *)
Definition py_prefix (n : nat) (s : string) : string := substring 0 n s.

(** ** Exceptions *)

Inductive exn : Type :=
| HTTPException (status_code : Z) (detail : string)
| ExpiredSignatureError                 (* jwt *)
| InvalidTokenError                     (* jwt, with its subclasses *)
| ConnectionError                       (* redis: server unreachable *)
| ResponseError (msg : string)          (* redis: command refused *)
| TypeError
| ValueError                            (* json.JSONDecodeError is one *)
| RequestError.                         (* httpx: transport failure *)

Definition HTTP_401_UNAUTHORIZED : Z := 401.
Definition HTTP_403_FORBIDDEN : Z := 403.
Definition HTTP_404_NOT_FOUND : Z := 404.
Definition HTTP_429_TOO_MANY_REQUESTS : Z := 429.
Definition HTTP_500_INTERNAL_SERVER_ERROR : Z := 500.
Definition HTTP_503_SERVICE_UNAVAILABLE : Z := 503.

(** [except HTTPException] *)
Definition is_HTTPException (e : exn) : bool :=
  match e with HTTPException _ _ => true | _ => false end.

(** ** The world: clock, Redis, log, metrics *)

(** What a Redis key holds. Text written with [json.dumps] of a dict is kept
    as the dict it encodes ([RJson]); other text is [RStr]. A sorted set maps
    each member to its score: members are unique. *)
Inductive rvalue : Type :=
| RStr (s : string)
| RJson (d : pydict)
| RZSet (z : gmap string Z).

(** A stored key: its value and the second at which it expires, if any. *)
Record entry : Type := Entry { value : rvalue; expires_at : option Z }.

Abbreviation redis_db := (gmap string entry).

(** [link] is the health of the Redis connection: one boolean per command
    still to be issued, [false] for a command that cannot reach the server;
    past the end of the list every command goes through. *)
Record world : Type := World {
  clock : Z;                      (* int(datetime.utcnow().timestamp()) *)
  db : redis_db;
  link : list bool;
  log : list (string * exn);      (* logger.error(prefix, exception) *)
  request_count : list (string * string * string);
                                  (* labels (method, endpoint, status) of each inc() *)
  service_request_count : list (string * string)
                                  (* labels (service, status) of each inc() *)
}.

Definition set_clock (t : Z) (w : world) : world :=
  World t (db w) (link w) (log w) (request_count w) (service_request_count w).

Definition set_db (d : redis_db) (w : world) : world :=
  World (clock w) d (link w) (log w) (request_count w) (service_request_count w).

Definition set_link (l : list bool) (w : world) : world :=
  World (clock w) (db w) l (log w) (request_count w) (service_request_count w).

Definition add_log (m : string) (e : exn) (w : world) : world :=
  World (clock w) (db w) (link w) (log w ++ [(m, e)]) (request_count w)
        (service_request_count w).

Definition add_count (method endpoint status : string) (w : world) : world :=
  World (clock w) (db w) (link w) (log w)
        (request_count w ++ [(method, endpoint, status)]) (service_request_count w).

Definition add_service_count (service status : string) (w : world) : world :=
  World (clock w) (db w) (link w) (log w) (request_count w)
        (service_request_count w ++ [(service, status)]).

(** A fresh world: empty database, healthy connection. *)
Definition boot (t : Z) : world := World t ∅ [] [] [] [].

(** ** The monad of Python code *)

Inductive outcome (A : Type) : Type :=
| Ret (a : A)
| Raise (e : exn).

Arguments Ret {A} a.

Arguments Raise {A} e.

Definition M (A : Type) : Type := world -> outcome A * world.

Definition ret {A} (a : A) : M A := fun w => (Ret a, w).

Definition raise {A} (e : exn) : M A := fun w => (Raise e, w).

Definition bind {A B} (m : M A) (k : A -> M B) : M B :=
  fun w => match m w with
           | (Ret a, w') => k a w'
           | (Raise e, w') => (Raise e, w')
           end.

Notation "'let*' x ':=' m 'in' k" := (bind m (fun x => k))
  (at level 10, x name, m at level 100, k at level 200).

Notation "'exec' m 'in' k" := (bind m (fun _ => k))
  (at level 10, m at level 100, k at level 200).

(** [try: m  except <handles>: h e]; other exceptions propagate. *)
Definition try_except {A} (m : M A) (handles : exn -> bool) (h : exn -> M A) : M A :=
  fun w => match m w with
           | (Ret a, w') => (Ret a, w')
           | (Raise e, w') => if handles e then h e w' else (Raise e, w')
           end.

(** [except Exception] *)
Definition any_Exception (e : exn) : bool := true.

(** [int(datetime.utcnow().timestamp())]: the reading of the host *)
Definition utcnow_timestamp : M Z := fun w => (Ret (clock w), w).

(** [logger.error(f"{m}: {e}")] *)
Definition logger_error (m : string) (e : exn) : M unit :=
  fun w => (Ret tt, add_log m e w).

(** ** Redis commands *)

(** A Python number as an argument of a command: an [int], or a [float]
    given by the whole number it equals. *)
Inductive pynumber : Type :=
| PyInt (n : Z)
| PyFloat (whole : Z).

Module Redis.

(** A key is there as long as its expiry lies ahead. *)
Definition live (now : Z) (e : entry) : bool :=
  match expires_at e with
  | Some t => now <? t
  | None => true
  end.

Definition fetch (now : Z) (d : redis_db) (k : string) : option entry :=
  match d !! k with
  | Some e => if live now e then Some e else None
  | None => None
  end.

Definition WRONGTYPE : exn :=
  ResponseError "WRONGTYPE Operation against a key holding the wrong kind of value".

(** One round trip to the server: it fails when the link is down, and
    otherwise runs the command on the database at the current second. *)
Definition command {A} (run : Z -> redis_db -> outcome A * redis_db) : M A :=
  fun w =>
    match link w with
    | false :: rest => (Raise ConnectionError, set_link rest w)
    | _ => let '(r, d) := run (clock w) (db w) in
           (r, set_db d (set_link (tail (link w)) w))
    end.

(** [ZREMRANGEBYSCORE key lo hi]: drop the members whose score lies in
    [[lo, hi]]; a sorted set left empty is removed. *)
Definition zremrangebyscore (k : string) (lo hi : Z) : M Z :=
  command (fun now d =>
    match fetch now d k with
    | None => (Ret 0, d)
    | Some (Entry (RZSet z) ex) =>
        let z' := filter (fun ms : string * Z => ¬ (lo <= ms.2 <= hi)) z in
        (Ret (Z.of_nat (size z) - Z.of_nat (size z')),
         if decide (z' = ∅) then delete k d else <[k := Entry (RZSet z') ex]> d)
    | Some _ => (Raise WRONGTYPE, d)
    end).

(** [ZCARD key] *)
Definition zcard (k : string) : M Z :=
  command (fun now d =>
    match fetch now d k with
    | None => (Ret 0, d)
    | Some (Entry (RZSet z) _) => (Ret (Z.of_nat (size z)), d)
    | Some _ => (Raise WRONGTYPE, d)
    end).

(** [ZADD key score member]: a member already there only has its score
    updated. *)
Definition zadd (k : string) (member : string) (score : Z) : M Z :=
  command (fun now d =>
    match fetch now d k with
    | None => (Ret 1, <[k := Entry (RZSet {[member := score]}) None]> d)
    | Some (Entry (RZSet z) ex) =>
        (Ret (if z !! member is Some _ then 0 else 1),
         <[k := Entry (RZSet (<[member := score]> z)) ex]> d)
    | Some _ => (Raise WRONGTYPE, d)
    end).

(** [EXPIRE key seconds] *)
Definition expire (k : string) (seconds : Z) : M bool :=
  command (fun now d =>
    match fetch now d k with
    | None => (Ret false, d)
    | Some e =>
        (Ret true,
         if seconds <=? 0 then delete k d
         else <[k := Entry (value e) (Some (now + seconds))]> d)
    end).

(** [SETEX key seconds value]. redis-py sends [seconds] as its text unless
    it is a [timedelta]; the server takes the text of an integer only, so a
    float, whose text has a fraction part also when it is whole, is
    refused. *)
Definition setex (k : string) (seconds : pynumber) (v : rvalue) : M unit :=
  command (fun now d =>
    match seconds with
    | PyFloat _ => (Raise (ResponseError "value is not an integer or out of range"), d)
    | PyInt seconds =>
        if seconds <=? 0 then (Raise (ResponseError "invalid expire time in setex"), d)
        else (Ret tt, <[k := Entry v (Some (now + seconds))]> d)
    end).

(** [GET key] *)
Definition get (k : string) : M (option rvalue) :=
  command (fun now d =>
    match fetch now d k with
    | None => (Ret None, d)
    | Some (Entry (RZSet _) _) => (Raise WRONGTYPE, d)
    | Some (Entry v _) => (Ret (Some v), d)
    end).

(** [EXISTS key] *)
Definition exists_ (k : string) : M bool :=
  command (fun now d => (Ret (bool_decide (is_Some (fetch now d k))), d)).

(** [DEL key] *)
Definition delete (k : string) : M unit :=
  command (fun now d => (Ret tt, base.delete k d)).

End Redis.

(** ** auth.py: RateLimiter *)

Module RateLimiter.

Definition check_rate_limit (key : string) (limit window : Z) : M bool :=
  let* current_time := utcnow_timestamp in
  let window_start := current_time - window in
  (* Clean old entries *)
  exec Redis.zremrangebyscore ("rate_limit:" +:+ key) 0 window_start in
  (* Count current requests *)
  let* current_requests := Redis.zcard ("rate_limit:" +:+ key) in
  if limit <=? current_requests then ret false
  else
    (* Add current request *)
    exec Redis.zadd ("rate_limit:" +:+ key) (pretty current_time) current_time in
    exec Redis.expire ("rate_limit:" +:+ key) window in
    ret true.

Record rate_info : Type := RateInfo {
  ri_limit : Z; ri_remaining : Z; ri_reset_time : Z; ri_window : Z
}.

Definition get_rate_limit_info (key : string) (limit window : Z) : M rate_info :=
  let* current_time := utcnow_timestamp in
  let window_start := current_time - window in
  exec Redis.zremrangebyscore ("rate_limit:" +:+ key) 0 window_start in
  let* current_requests := Redis.zcard ("rate_limit:" +:+ key) in
  ret (RateInfo limit (Z.max 0 (limit - current_requests)) (current_time + window) window).

End RateLimiter.

(** ** The environment of the process

    Configuration read with [os.getenv] at import time, and the parts of the
    PyJWT library that the embedding leaves open: the HMAC-SHA256 signature
    and the base64url text of a claim set. PyJWT 2 rejects a token at the
    very second of its [exp], PyJWT 1 only after it; [expired_at_exp] says
    which, and the development holds for both. [UTC_OFFSET] is the offset
    of the host's time zone in seconds, east of Greenwich positive. *)
Class Env : Type := {
  UTC_OFFSET : Z;
  JWT_SECRET : string;
  JWT_ACCESS_TOKEN_EXPIRE_MINUTES : Z;
  JWT_REFRESH_TOKEN_EXPIRE_DAYS : Z;
  SERVICE_URLS : gmap string string;
  hs256 : string -> string -> string;     (* key, signing input *)
  b64_json : pydict -> string;
  expired_at_exp : bool
}.

(** ** The jwt library, as auth.py uses it *)

Module jwt.

(** A compact JWS whose header names HS256, seen through its three
    segments; [claims] is what the payload segment decodes to. *)
Record jws : Type := Jws {
  header : string;
  payload : string;
  claims : pydict;
  signature : string
}.

(** A bearer string: a JWS as above, or any other text. *)
Inductive token : Type :=
| Compact (j : jws)
| Opaque (s : string).

(** The Python [str] of the token. *)
Definition text (t : token) : string :=
  match t with
  | Compact j => header j +:+ "." +:+ payload j +:+ "." +:+ signature j
  | Opaque s => s
  end.

(** base64url of the JOSE header of every HS256 token that [encode]
    makes: the object with alg HS256 and typ JWT. *)
Definition HS256_HEADER : string := "eyJhbGciOiJIUzI1NiIsInR5cCI6IkpXVCJ9".

Section WithEnv.

Context `{Env}.

Definition signing_input (hdr pl : string) : string := hdr +:+ "." +:+ pl.

(** [jwt.encode(claims, key, algorithm=HS256)] *)
Definition encode (c : pydict) (key : string) : token :=
  Compact (Jws HS256_HEADER (b64_json c) c
               (hs256 key (signing_input HS256_HEADER (b64_json c)))).

(** Seconds since the epoch: what PyJWT makes of [datetime.utcnow()] in a
    claim ([timegm] of its UTC time tuple), and what it reads itself when
    it checks [exp]. *)
Definition utc_epoch : M Z := fun w => (Ret (clock w + UTC_OFFSET), w).

Definition expired (exp now : Z) : bool :=
  if expired_at_exp then exp <=? now else exp <? now.

(** [jwt.decode(token, key, algorithms=[HS256], options={verify_exp})]:
    the signature is checked first, then the expiry when asked for. The
    tokens of this repository carry [exp] as an integer; any other [exp]
    is taken as malformed. The registered claims that the repository never
    sets (nbf, aud, iss) are left out. *)
Definition decode (t : token) (key : string) (verify_exp : bool) : M pydict :=
  match t with
  | Opaque _ => raise InvalidTokenError
  | Compact j =>
      if negb (String.eqb (signature j) (hs256 key (signing_input (header j) (payload j))))
      then raise InvalidTokenError
      else if verify_exp then
        match claims j !! "exp" with
        | None => ret (claims j)
        | Some (PInt exp) =>
            let* now := utc_epoch in
            if expired exp now then raise ExpiredSignatureError else ret (claims j)
        | Some _ => raise InvalidTokenError
        end
      else ret (claims j)
  end.

End WithEnv.

End jwt.

(** [str(v)], as an f-string formats a value *)
Definition py_str (v : pyval) : string :=
  match v with
  | PNone => "None"
  | PBool true => "True"
  | PBool false => "False"
  | PInt n => pretty n
  | PStr s => s
  end.

(** [a or b] *)
Definition py_or (a b : pyval) : pyval := if truthy a then a else b.

(** ** auth.py: TokenManager *)

Module TokenManager.

Section WithEnv.

Context `{Env}.

(** [expires_delta] is a [timedelta] in whole seconds; a zero one is
    falsy and selects the default lifetime. *)
Definition create_access_token (data : pydict) (expires_delta : option Z) : M jwt.token :=
  let to_encode := data in
  let* now := jwt.utc_epoch in
  let expire :=
    match expires_delta with
    | Some d => if d =? 0 then now + JWT_ACCESS_TOKEN_EXPIRE_MINUTES * 60 else now + d
    | None => now + JWT_ACCESS_TOKEN_EXPIRE_MINUTES * 60
    end in
  let to_encode :=
    <["type" := PStr "access"]> (<["iat" := PInt now]> (<["exp" := PInt expire]> to_encode)) in
  ret (jwt.encode to_encode JWT_SECRET).

Definition create_refresh_token (data : pydict) : M jwt.token :=
  let to_encode := data in
  let* now := jwt.utc_epoch in
  let expire := now + JWT_REFRESH_TOKEN_EXPIRE_DAYS * 86400 in
  let to_encode :=
    <["type" := PStr "refresh"]> (<["iat" := PInt now]> (<["exp" := PInt expire]> to_encode)) in
  ret (jwt.encode to_encode JWT_SECRET).

Definition verify_token (token : jwt.token) : M pydict :=
  try_except (jwt.decode token JWT_SECRET true)
    (fun e => match e with ExpiredSignatureError | InvalidTokenError => true | _ => false end)
    (fun e => match e with
              | ExpiredSignatureError => raise (HTTPException HTTP_401_UNAUTHORIZED "Token has expired")
              | _ => raise (HTTPException HTTP_401_UNAUTHORIZED "Invalid token")
              end).

(** The key of the blacklist record: [jti], or the first 16 characters
    of the token. *)
Definition blacklist_key (claims : pydict) (token : jwt.token) : string :=
  let jti := py_or (py_get claims "jti") (PStr (py_prefix 16 (jwt.text token))) in
  "blacklist:" +:+ py_str jti.

Definition blacklist_token (token : jwt.token) (expires_in : option Z) : M unit :=
  try_except
    (let* payload := jwt.decode token JWT_SECRET true in
     let key := blacklist_key payload token in
     let exp := py_get payload "exp" in
     if truthy exp then
       match exp with
       | PInt exp =>
           let* now := utcnow_timestamp in
           let ttl := exp - now in
           if 0 <? ttl then Redis.setex key (PyInt ttl) (RStr "1") else ret tt
       | _ => raise TypeError
       end
     else
       let expires_in := match expires_in with
                         | Some n => if n =? 0 then 3600 else n
                         | None => 3600
                         end in
       Redis.setex key (PyInt expires_in) (RStr "1"))
    any_Exception
    (fun e => logger_error "Failed to blacklist token" e).

Definition is_token_blacklisted (token : jwt.token) : M bool :=
  try_except
    (let* payload := jwt.decode token JWT_SECRET false in
     Redis.exists_ (blacklist_key payload token))
    any_Exception
    (fun _ => ret true).   (* Treat invalid tokens as blacklisted *)

End WithEnv.

End TokenManager.

(** ** auth.py: SessionManager *)

Module SessionManager.

(** [timedelta(hours=24).total_seconds()]: the float 86400.0 *)
Definition SESSION_TTL : pynumber := PyFloat 86400.

(** [datetime.utcnow().isoformat()], kept as the text of the second count *)
Definition isoformat (t : Z) : pyval := PStr (pretty t).

(** [uuid] is the value that [uuid.uuid4()] draws. *)
Definition create_session (uuid : string) (user_id : string) (session_data : pydict)
  : M string :=
  let session_id := uuid in
  let session_key := "session:" +:+ session_id in
  let* now := utcnow_timestamp in
  let session_data :=
    <["last_activity" := isoformat now]>
      (<["created_at" := isoformat now]> (<["user_id" := PStr user_id]> session_data)) in
  exec Redis.setex session_key SESSION_TTL (RJson session_data) in
  ret session_id.

Definition get_session (session_id : string) : M (option pydict) :=
  let session_key := "session:" +:+ session_id in
  let* session_data := Redis.get session_key in
  match session_data with
  | Some (RJson d) =>
      (* Update last activity *)
      let* now := utcnow_timestamp in
      let data := <["last_activity" := isoformat now]> d in
      exec Redis.setex session_key SESSION_TTL (RJson data) in
      ret (Some data)
  | Some (RStr s) =>
      if String.eqb s "" then ret None
      else raise ValueError        (* json.loads of text that is no JSON object *)
  | Some (RZSet _) => raise TypeError   (* not reached: GET refuses a sorted set *)
  | None => ret None
  end.

Definition delete_session (session_id : string) : M unit :=
  Redis.delete ("session:" +:+ session_id).

End SessionManager.

(** ** auth.py: roles, permissions and the authenticated user *)

Module UserRole.

Definition ADMIN := "admin".
Definition TOURNAMENT_MANAGER := "tournament_manager".
Definition REFEREE := "referee".
Definition TEAM_CAPTAIN := "team_captain".
Definition PLAYER := "player".
Definition VIEWER := "viewer".

End UserRole.

Module Permission.

Definition CREATE_TOURNAMENT := "tournament:create".
Definition UPDATE_TOURNAMENT := "tournament:update".
Definition DELETE_TOURNAMENT := "tournament:delete".
Definition VIEW_TOURNAMENT := "tournament:view".
Definition DEPLOY_TOURNAMENT := "tournament:deploy".
Definition PAUSE_TOURNAMENT := "tournament:pause".
Definition APPROVE_TEAM := "team:approve".
Definition REJECT_TEAM := "team:reject".
Definition VIEW_TEAM := "team:view".
Definition UPDATE_TEAM := "team:update".
Definition DELETE_TEAM := "team:delete".
Definition SCHEDULE_MATCH := "match:schedule".
Definition UPDATE_MATCH := "match:update".
Definition SUBMIT_RESULT := "match:submit_result".
Definition APPROVE_RESULT := "match:approve_result".
Definition REJECT_RESULT := "match:reject_result".
Definition VIEW_AUDIT_LOGS := "system:view_audit".
Definition MANAGE_USERS := "system:manage_users".
Definition SYSTEM_CONFIG := "system:config".
Definition VIEW_METRICS := "system:metrics".

End Permission.

Import Permission.

Definition ROLE_PERMISSIONS : list (string * list string) := [
  (UserRole.ADMIN, [
     CREATE_TOURNAMENT; UPDATE_TOURNAMENT; DELETE_TOURNAMENT;
     VIEW_TOURNAMENT; DEPLOY_TOURNAMENT; PAUSE_TOURNAMENT;
     APPROVE_TEAM; REJECT_TEAM; VIEW_TEAM;
     UPDATE_TEAM; DELETE_TEAM;
     SCHEDULE_MATCH; UPDATE_MATCH; SUBMIT_RESULT;
     APPROVE_RESULT; REJECT_RESULT;
     VIEW_AUDIT_LOGS; MANAGE_USERS; SYSTEM_CONFIG;
     VIEW_METRICS ]);
  (UserRole.TOURNAMENT_MANAGER, [
     CREATE_TOURNAMENT; UPDATE_TOURNAMENT; VIEW_TOURNAMENT;
     DEPLOY_TOURNAMENT; PAUSE_TOURNAMENT;
     APPROVE_TEAM; REJECT_TEAM; VIEW_TEAM;
     SCHEDULE_MATCH; UPDATE_MATCH;
     APPROVE_RESULT; REJECT_RESULT;
     VIEW_AUDIT_LOGS ]);
  (UserRole.REFEREE, [ VIEW_TOURNAMENT; VIEW_TEAM; SUBMIT_RESULT; UPDATE_MATCH ]);
  (UserRole.TEAM_CAPTAIN, [ VIEW_TOURNAMENT; VIEW_TEAM; UPDATE_TEAM ]);
  (UserRole.PLAYER, [ VIEW_TOURNAMENT; VIEW_TEAM ]);
  (UserRole.VIEWER, [ VIEW_TOURNAMENT ])
].

(** [ROLE_PERMISSIONS.get(role, [])]: a role that is no string is no key. *)
Definition role_permissions (role : pyval) : list string :=
  match role with
  | PStr r =>
      match find (fun rp => String.eqb (fst rp) r) ROLE_PERMISSIONS with
      | Some rp => snd rp
      | None => []
      end
  | _ => []
  end.

Record AuthUser : Type := mkAuthUser {
  user_id : pyval;
  email : pyval;
  role : pyval;
  permissions : list string;
  session_id : pyval;
  extra_data : pydict
}.

Definition has_permission (u : AuthUser) (permission : string) : bool :=
  existsb (String.eqb permission) (permissions u).

Definition has_role (u : AuthUser) (r : string) : bool := py_eq (role u) (PStr r).

Definition has_any_role (u : AuthUser) (roles : list string) : bool :=
  existsb (fun r => py_eq (role u) (PStr r)) roles.

(** ** auth.py: resolving the caller *)

Section Resolver.

Context `{Env}.

Definition unauthorized {A} (detail : string) : M A :=
  raise (HTTPException HTTP_401_UNAUTHORIZED detail).

(** The claims that [get_current_user] does not pass on as keyword
    arguments of [AuthUser]. *)
Definition consumed_claims : list string :=
  ["sub"; "email"; "role"; "session_id"; "exp"; "iat"; "type"].

(** The parameter names of [AuthUser.__init__]: a keyword argument given
    twice is a [TypeError]. *)
Definition AuthUser_parameters : list string :=
  ["self"; "user_id"; "email"; "role"; "permissions"; "session_id"].

(** [AuthUser(user_id=.., email=.., role=.., permissions=.., session_id=.., **extra)] *)
Definition AuthUser_init (user_id email role : pyval) (permissions : list string)
    (session_id : pyval) (extra : pydict) : M AuthUser :=
  if existsb (fun k => bool_decide (is_Some (extra !! k))) AuthUser_parameters
  then raise TypeError
  else ret (mkAuthUser user_id email role permissions session_id extra).

Definition get_current_user (credentials : jwt.token) : M AuthUser :=
  let token := credentials in
  (* Check if token is blacklisted *)
  let* revoked := TokenManager.is_token_blacklisted token in
  if revoked then unauthorized "Token has been revoked" else
  (* Verify token *)
  let* payload := TokenManager.verify_token token in
  (* Check token type *)
  if negb (py_eq (py_get payload "type") (PStr "access"))
  then unauthorized "Invalid token type" else
  (* Extract user information *)
  let user_id := py_get payload "sub" in
  let email := py_get payload "email" in
  let role := py_get payload "role" in
  let session_id := py_get payload "session_id" in
  if negb (truthy user_id) || negb (truthy email) || negb (truthy role)
  then unauthorized "Invalid token payload" else
  (* Get permissions for role *)
  let permissions := role_permissions role in
  (* Verify session if present *)
  exec (if truthy session_id then
          let* session_data := SessionManager.get_session (py_str session_id) in
          match session_data with
          | None => unauthorized "Invalid session"
          | Some d =>
              if bool_decide (d = ∅) || negb (py_eq (py_get d "user_id") user_id)
              then unauthorized "Invalid session"
              else ret tt
          end
        else ret tt) in
  AuthUser_init user_id email role permissions session_id
    (filter (fun kv : string * pyval => kv.1 ∉ consumed_claims) payload).

Definition forbidden {A} (detail : string) : M A :=
  raise (HTTPException HTTP_403_FORBIDDEN detail).

Definition require_permission (permission : string) (credentials : jwt.token) : M AuthUser :=
  let* current_user := get_current_user credentials in
  if negb (has_permission current_user permission)
  then forbidden ("Permission '" +:+ permission +:+ "' required")
  else ret current_user.

(** [credentials] is [None] when the request bears no token. *)
Definition get_optional_user (credentials : option jwt.token) : M (option AuthUser) :=
  match credentials with
  | None => ret None
  | Some c =>
      try_except
        (let* u := get_current_user c in ret (Some u))
        is_HTTPException
        (fun _ => ret None)
  end.

End Resolver.

(** ** api-gateway/main.py *)

#[local] Set Warnings "-register-all".

Inductive json : Type :=
| JNull
| JBool (b : bool)
| JInt (n : Z)
| JStr (s : string)
| JList (l : list json)
| JDict (fields : list (string * json)).

Definition json_of_pyval (v : pyval) : json :=
  match v with
  | PNone => JNull
  | PBool b => JBool b
  | PInt n => JInt n
  | PStr s => JStr s
  end.

(** An inbound request. The server hands header names over in lower case;
    [state_request_id] is [request.state.request_id]. *)
Record Request : Type := mkRequest {
  method : string;
  url_path : string;
  req_headers : list (string * string);
  client_host : string;
  query_params : list (string * string);
  req_body : string;
  state_request_id : string
}.

Definition set_request_id (rid : string) (r : Request) : Request :=
  mkRequest (method r) (url_path r) (req_headers r) (client_host r)
            (query_params r) (req_body r) rid.

(** A [JSONResponse]: [headers] are those the gateway code gives or sets. *)
Record Response : Type := JSONResponse {
  status_code : Z;
  content : json;
  headers : gmap string string
}.

(** What [http_client.request] is called with and what it returns. *)
Record Outbound : Type := mkOutbound {
  out_method : string;
  out_url : string;
  out_headers : gmap string string;
  out_params : list (string * string);
  out_content : option string
}.

Inductive body : Type :=
| NoContent
| JsonText (j : json)
| OtherText (s : string).

Record ServiceResponse : Type := mkServiceResponse {
  svc_status_code : Z;
  svc_headers : gmap string string;      (* dict(response.headers) *)
  svc_content : body
}.

Module Gateway.

Definition VERSION : string := "1.0.0".

Definition hop_by_hop : list string :=
  ["connection"; "keep-alive"; "proxy-authenticate";
   "proxy-authorization"; "te"; "trailers"; "transfer-encoding"; "upgrade"].

(** [path.lstrip('/')] *)
Fixpoint lstrip_slash (s : string) : string :=
  match s with
  | String c s' => if Ascii.eqb c "/"%char then lstrip_slash s' else s
  | EmptyString => s
  end.

(** [for header in hop_by_hop: headers.pop(header, None)] *)
Definition pop_all {V} (names : list string) (h : gmap string V) : gmap string V :=
  fold_left (fun acc name => delete name acc) names h.

(** httpx takes text as a header value and nothing else. *)
Definition header_text (v : pyval) : option string :=
  match v with PStr s => Some s | _ => None end.

(** [response.json() if response.content else None] *)
Definition relay_content (b : body) : M json :=
  match b with
  | NoContent => ret JNull
  | JsonText j => ret j
  | OtherText _ => raise ValueError
  end.

Section WithEnv.

Context `{Env}.

(** The headers sent downstream: the block of [proxy_to_service] from
    [headers = dict(request.headers)] to the removal of the hop-by-hop
    headers. *)
Definition forward_headers (request : Request) (user : option AuthUser)
  : gmap string pyval :=
  (* Prepare headers *)
  let headers : gmap string pyval := PStr <$> list_to_map (req_headers request) in
  let headers :=
    match user with
    | Some user =>
        <["X-User-Role" := role user]>
          (<["X-User-Email" := email user]> (<["X-User-ID" := user_id user]> headers))
    | None => headers
    end in
  let headers := <["X-Request-ID" := PStr (state_request_id request)]> headers in
  let headers := <["X-Forwarded-For" := PStr (client_host request)]> headers in
  (* Remove hop-by-hop headers *)
  pop_all hop_by_hop headers.

(** [http_client] stands for [http_client.request]: the call to the
    downstream service, which answers or raises. *)
Definition proxy_to_service (http_client : Outbound -> M ServiceResponse)
    (request : Request) (service : string) (path : string) (user : option AuthUser)
  : M Response :=
  match SERVICE_URLS !! service with
  | None => raise (HTTPException HTTP_404_NOT_FOUND ("Service '" +:+ service +:+ "' not found"))
  | Some service_url =>
    if String.eqb service_url ""
    then raise (HTTPException HTTP_404_NOT_FOUND ("Service '" +:+ service +:+ "' not found"))
    else
    let target_url := service_url +:+ "/" +:+ lstrip_slash path in
    let headers := forward_headers request user in
    try_except
      ((* Get request body if present *)
       let body :=
         if existsb (String.eqb (method request)) ["POST"; "PUT"; "PATCH"]
         then Some (req_body request) else None in
       (* Make request to service *)
       let* response :=
         if bool_decide (map_Forall (fun _ v => is_Some (header_text v)) headers)
         then http_client (mkOutbound (method request) target_url
                                      (omap header_text headers)
                                      (query_params request) body)
         else raise TypeError in
       (* Update metrics *)
       exec (fun w => (Ret tt, add_service_count service
                                 (pretty (svc_status_code response)) w)) in
       (* Return response *)
       let* content := relay_content (svc_content response) in
       ret (JSONResponse (svc_status_code response) content (svc_headers response)))
      (fun e => match e with RequestError => true | _ => false end)
      (fun e =>
         exec logger_error "Service request failed" e in
         exec (fun w => (Ret tt, add_service_count service "error" w)) in
         raise (HTTPException HTTP_503_SERVICE_UNAVAILABLE
                              ("Service '" +:+ service +:+ "' unavailable")))
  end.

(** [@app.exception_handler(HTTPException)] *)
Definition http_exception_handler (request : Request) (status : Z) (detail : string)
  : Response :=
  JSONResponse status
    (JDict [("success", JBool false);
            ("error", JDict [("code", JStr "HTTP_ERROR"); ("message", JStr detail)]);
            ("request_id", JStr (state_request_id request))])
    ∅.

(** A route under the application's exception handling: an
    [HTTPException] of the endpoint becomes its response; any other
    exception is raised again to the middleware. *)
Definition route (endpoint : Request -> M Response) (request : Request) : M Response :=
  try_except (endpoint request) is_HTTPException
    (fun e => match e with
              | HTTPException status detail =>
                  ret (http_exception_handler request status detail)
              | _ => raise e
              end).

Definition tournament_proxy http_client (credentials : option jwt.token) (path : string)
    (request : Request) : M Response :=
  let* user := get_optional_user credentials in
  proxy_to_service http_client request "tournament" ("api/v1/tournaments/" +:+ path) user.

(** The bearer dependency has already refused a request without a
    token when this endpoint runs. *)
Definition audit_proxy http_client (credentials : jwt.token) (path : string)
    (request : Request) : M Response :=
  let* user := get_current_user credentials in
  if negb (has_permission user "system:view_audit")
  then raise (HTTPException HTTP_403_FORBIDDEN "Insufficient permissions")
  else proxy_to_service http_client request "audit" ("api/v1/audit/" +:+ path) (Some user).

End WithEnv.

(** [request.headers.get(name, default)] *)
Definition header_get (name default : string) (r : Request) : string :=
  match find (fun kv => String.eqb (fst kv) name) (req_headers r) with
  | Some kv => snd kv
  | None => default
  end.

Definition rate_info_json (i : RateLimiter.rate_info) : json :=
  JDict [("limit", JInt (RateLimiter.ri_limit i));
         ("remaining", JInt (RateLimiter.ri_remaining i));
         ("reset_time", JInt (RateLimiter.ri_reset_time i));
         ("window", JInt (RateLimiter.ri_window i))].

Definition count_request (request : Request) (status : string) : M unit :=
  fun w => (Ret tt, add_count (method request) (url_path request) status w).

(** [uuid] is the value that [uuid.uuid4()] draws; [call_next] is the rest
    of the application. The duration histogram is left out. *)
Definition request_middleware (uuid : string) (request : Request)
    (call_next : Request -> M Response) : M Response :=
  let request_id := uuid in
  (* Add request ID to headers *)
  let request := set_request_id request_id request in
  (* Rate limiting *)
  let client_ip := client_host request in
  let user_agent := header_get "user-agent" "unknown" request in
  let rate_limit_key := client_ip +:+ ":" +:+ user_agent in
  (* Check rate limit (100 requests per minute by default) *)
  let rate_limit := 100 in
  let window := 60 in
  let* allowed := RateLimiter.check_rate_limit rate_limit_key rate_limit window in
  if negb allowed then
    let* rate_info := RateLimiter.get_rate_limit_info rate_limit_key rate_limit window in
    let response :=
      JSONResponse HTTP_429_TOO_MANY_REQUESTS
        (JDict [("success", JBool false);
                ("error", JDict [("code", JStr "RATE_LIMIT_EXCEEDED");
                                 ("message", JStr "Rate limit exceeded");
                                 ("details", rate_info_json rate_info)]);
                ("request_id", JStr request_id)])
        (<["X-Rate-Limit-Reset" := pretty (RateLimiter.ri_reset_time rate_info)]>
           (<["X-Rate-Limit-Remaining" := pretty (RateLimiter.ri_remaining rate_info)]> ∅)) in
    exec count_request request "429" in
    ret response
  else
    (* Process request *)
    try_except
      (let* response := call_next request in
       (* Add response headers *)
       let response :=
         JSONResponse (status_code response) (content response)
           (<["X-API-Version" := VERSION]>
              (<["X-Request-ID" := request_id]> (headers response))) in
       (* Update metrics *)
       exec count_request request (pretty (status_code response)) in
       ret response)
      any_Exception
      (fun e =>
         exec logger_error ("Request " +:+ request_id +:+ " failed") e in
         exec count_request request "500" in
         ret (JSONResponse HTTP_500_INTERNAL_SERVER_ERROR
                (JDict [("success", JBool false);
                        ("error", JDict [("code", JStr "INTERNAL_ERROR");
                                         ("message", JStr "Internal server error");
                                         ("details", JDict [("request_id", JStr request_id)])]);
                        ("request_id", JStr request_id)])
                ∅)).

End Gateway.

(** ** Two callers on one key

    [check_rate_limit] sends four commands to the store, one after the
    other, with nothing that groups them. The store runs each command
    atomically; between two commands of one caller it may run commands of
    another. Below, a call is a small machine that advances by one command
    per step, and a schedule says which of two callers moves next. *)

Module Interleaving.

Inductive pc : Type :=
| AtEvict                  (* about to send zremrangebyscore *)
| AtCount                  (* about to send zcard *)
| AtInsert                 (* counted below the limit, about to send zadd *)
| AtExpire                 (* about to send expire *)
| Returned (b : bool)
| Raised (e : exn).

Record call : Type := Call {
  c_key : string;
  c_limit : Z;
  c_window : Z;
  c_time : Z;              (* current_time, read as the call starts *)
  c_pc : pc
}.

Definition start (key : string) (limit window : Z) (w : world) : call :=
  Call key limit window (clock w) AtEvict.

Definition goto (p : pc) (c : call) : call :=
  Call (c_key c) (c_limit c) (c_window c) (c_time c) p.

(** The next command of the call, as [check_rate_limit] sends it. *)
Definition step (c : call) (w : world) : call * world :=
  let k := "rate_limit:" +:+ c_key c in
  match c_pc c with
  | AtEvict =>
      match Redis.zremrangebyscore k 0 (c_time c - c_window c) w with
      | (Ret _, w') => (goto AtCount c, w')
      | (Raise e, w') => (goto (Raised e) c, w')
      end
  | AtCount =>
      match Redis.zcard k w with
      | (Ret current_requests, w') =>
          (goto (if c_limit c <=? current_requests then Returned false else AtInsert) c, w')
      | (Raise e, w') => (goto (Raised e) c, w')
      end
  | AtInsert =>
      match Redis.zadd k (pretty (c_time c)) (c_time c) w with
      | (Ret _, w') => (goto AtExpire c, w')
      | (Raise e, w') => (goto (Raised e) c, w')
      end
  | AtExpire =>
      match Redis.expire k (c_window c) w with
      | (Ret _, w') => (goto (Returned true) c, w')
      | (Raise e, w') => (goto (Raised e) c, w')
      end
  | Returned _ | Raised _ => (c, w)
  end.

Fixpoint steps (n : nat) (c : call) (w : world) : call * world :=
  match n with
  | O => (c, w)
  | S n' => let '(c', w') := step c w in steps n' c' w'
  end.

(** [false] moves the first caller, [true] the second. *)
Fixpoint run (schedule : list bool) (a b : call) (w : world) : call * call * world :=
  match schedule with
  | [] => (a, b, w)
  | false :: rest => let '(a', w') := step a w in run rest a' b w'
  | true :: rest => let '(b', w') := step b w in run rest a b' w'
  end.

Definition outcome_of (c : call) : option (outcome bool) :=
  match c_pc c with
  | Returned b => Some (Ret b)
  | Raised e => Some (Raise e)
  | _ => None
  end.

End Interleaving.

(** ** A concrete environment: the defaults of [os.getenv]

    The keyed hash is a stand-in for HMAC-SHA256: nothing below depends on
    more than on its being a function of the key and of the signing input.
    The payload segment is a stand-in as well: the claims written out, so
    that tokens made from different claims differ in their text. The host
    keeps UTC. *)
Definition scalar_text (v : pyval) : string :=
  match v with
  | PNone => "null"
  | PBool true => "true"
  | PBool false => "false"
  | PInt n => pretty n
  | PStr s => "'" +:+ s +:+ "'"
  end.

Definition claims_text (c : pydict) : string :=
  "{" +:+ String.concat "," ((fun kv : string * pyval => kv.1 +:+ ":" +:+ scalar_text kv.2)
                               <$> map_to_list c) +:+ "}".

Definition default_env : Env := {|
  UTC_OFFSET := 0;
  JWT_SECRET := "your-super-secret-jwt-key-change-in-production";
  JWT_ACCESS_TOKEN_EXPIRE_MINUTES := 30;
  JWT_REFRESH_TOKEN_EXPIRE_DAYS := 7;
  SERVICE_URLS := list_to_map [
    ("tournament", "http://tournament-api:8080");
    ("elo", "http://elo-service:8080");
    ("leaderboard", "http://leaderboard-service:8080");
    ("review", "http://review-workflow:8080");
    ("hash", "http://hash-verification:8080");
    ("team", "http://team-management:8080");
    ("match", "http://match-scheduling:8080");
    ("notification", "http://notification-service:8080");
    ("audit", "http://audit-service:8080")];
  hs256 := fun key msg => "hs256(" +:+ key +:+ "," +:+ msg +:+ ")";
  b64_json := claims_text;
  expired_at_exp := true
|}.

(** * Notions of the statements *)

(** ** The sliding window *)

(** The members that [zremrangebyscore key 0 (now - window)] leaves. *)
Definition in_window (now window : Z) (z : gmap string Z) : gmap string Z :=
  filter (fun ms : string * Z => ¬ (0 <= ms.2 <= now - window)) z.

(** The sorted set under a rate-limit key, empty when the key is gone. *)
Definition entries (w : world) (key : string) : gmap string Z :=
  match Redis.fetch (clock w) (db w) ("rate_limit:" +:+ key) with
  | Some (Entry (RZSet z) _) => z
  | _ => ∅
  end.

(** A rate-limit key holds a sorted set, if anything. *)
Definition well_typed (w : world) (key : string) : Prop :=
  forall e, Redis.fetch (clock w) (db w) ("rate_limit:" +:+ key) = Some e ->
            exists z, value e = RZSet z.

(** What one call does to the database, when the store answers: evict,
    count, and on acceptance insert [now] and set the expiry. *)
Definition window_db (w : world) (key : string) (limit window : Z) : redis_db :=
  let k := "rate_limit:" +:+ key in
  let now := clock w in
  let z' := in_window now window (entries w key) in
  if limit <=? Z.of_nat (size z') then
    match Redis.fetch now (db w) k with
    | Some (Entry _ ex) =>
        if decide (z' = ∅) then delete k (db w) else <[k := Entry (RZSet z') ex]> (db w)
    | None => db w
    end
  else if window <=? 0 then delete k (db w)
  else <[k := Entry (RZSet (<[pretty now := now]> z')) (Some (now + window))]> (db w).

(** The entries that calls of [check_rate_limit] up to second [now] leave:
    each member is the text of its score, a second between 0 and [now]. *)
Definition stamped (now : Z) (z : gmap string Z) : Prop :=
  forall m s, z !! m = Some s -> m = pretty s /\ 0 <= s <= now.

(** ** Tokens, revocation and sessions *)

Section TokenNotions.
Context `{Env}.

(** The signature of the token verifies under [JWT_SECRET]. *)
Definition well_signed (t : jwt.token) : bool :=
  match t with
  | jwt.Compact j =>
      String.eqb (jwt.signature j)
                 (hs256 JWT_SECRET (jwt.signing_input (jwt.header j) (jwt.payload j)))
  | jwt.Opaque _ => false
  end.

Definition token_claims (t : jwt.token) : pydict :=
  match t with
  | jwt.Compact j => jwt.claims j
  | jwt.Opaque _ => ∅
  end.

(** The [exp] claim, when it is an integer. *)
Definition expiry (t : jwt.token) : option Z :=
  match token_claims t !! "exp" with
  | Some (PInt e) => Some e
  | _ => None
  end.

(** Signature and expiry checks alone pass when the host reads [now]:
    PyJWT compares [exp] with the seconds since the epoch. *)
Definition verifies (now : Z) (t : jwt.token) : bool :=
  well_signed t &&
  match token_claims t !! "exp" with
  | None => true
  | Some (PInt e) => negb (jwt.expired e (now + UTC_OFFSET))
  | Some _ => false
  end.

(** A live blacklist record sits under the key of the token. *)
Definition revoked (w : world) (t : jwt.token) : bool :=
  bool_decide (is_Some (Redis.fetch (clock w) (db w)
                 (TokenManager.blacklist_key (token_claims t) t))).

(** The session under an id, as a read at the current second finds it. *)
Definition session_key (session_id : pyval) : string := "session:" +:+ py_str session_id.

(** A token as [create_access_token] or [create_refresh_token] makes it
    from claims without a [jti]. *)
Definition issued (tok : jwt.token) : Prop :=
  exists (data : pydict) (w0 : world),
    truthy (py_get data "jti") = false /\
    ((exists delta, fst (TokenManager.create_access_token data delta w0) = Ret tok) \/
     fst (TokenManager.create_refresh_token data w0) = Ret tok).

(** Every issued token is blacklisted under the same key. *)
Definition SHARED_KEY : string := "blacklist:eyJhbGciOiJIUzI1".

End TokenNotions.

(** ** What the construction of the user needs *)

Section Construction.

Context `{Env}.

(** No claim left over is named like a parameter of [AuthUser]. *)
Definition constructible (t : jwt.token) : Prop :=
  existsb (fun k => bool_decide (is_Some (
             filter (fun kv : string * pyval => kv.1 ∉ consumed_claims)
                    (token_claims t) !! k)))
          AuthUser_parameters = false.

(** The token carries no session id, or the store holds no session under
    the one it carries: resolving the token does not get to the session
    being touched. *)
Definition session_free (t : jwt.token) (w : world) : Prop :=
  truthy (py_get (token_claims t) "session_id") = false \/
  Redis.fetch (clock w) (db w) (session_key (py_get (token_claims t) "session_id")) = None.

End Construction.

(** ** The middleware *)

(** [body[name]] of a JSON object *)
Definition json_field (name : string) (j : json) : option json :=
  match j with
  | JDict fields => snd <$> find (fun kv => String.eqb (fst kv) name) fields
  | _ => None
  end.

(** The key under which the middleware counts a client. *)
Definition rate_limit_key (request : Request) : string :=
  client_host request +:+ ":" +:+ Gateway.header_get "user-agent" "unknown" request.

(** ** Scenarios in the default environment *)

Section ScenarioData.
Local Existing Instance default_env.

Definition token_of (m : M jwt.token) (w : world) : jwt.token :=
  match fst (m w) with
  | Ret t => t
  | Raise _ => jwt.Opaque ""
  end.

Definition claims_of (sub : string) (role : string) : pydict :=
  <["role" := PStr role]>
    (<["email" := PStr (sub +:+ "@example.org")]> (<["sub" := PStr sub]> ∅)).

Definition get_tournaments : Request :=
  mkRequest "GET" "/api/v1/tournaments"
    [("host", "gateway"); ("user-agent", "curl/8.5"); ("connection", "keep-alive")]
    "10.0.0.7" [] "" "".

(** A downstream service that answers 200 with chunked transfer encoding,
    its body telling whether a [connection] header reached it. *)
Definition chunked_service (o : Outbound) : M ServiceResponse :=
  ret (mkServiceResponse 200
         (<["transfer-encoding" := "chunked"]> (<["content-type" := "application/json"]> ∅))
         (JsonText (JBool (bool_decide (is_Some (out_headers o !! "connection")))))).

Definition viewer_token : jwt.token :=
  token_of (TokenManager.create_access_token (claims_of "user-1" "viewer") None) (boot 1000).

Definition session_token : jwt.token :=
  token_of (TokenManager.create_access_token
              (<["session_id" := PStr "s-1"]> (claims_of "user-1" "viewer")) None)
           (boot 1000).

Definition refresh_token : jwt.token :=
  token_of (TokenManager.create_refresh_token (claims_of "user-2" "player")) (boot 50).

(** A store that holds the session s-1 of [user], written at second 900
    for 24 hours, as a writer that gives SETEX whole seconds leaves it. *)
Definition session_record (user : string) : pydict :=
  <["last_activity" := SessionManager.isoformat 900]>
    (<["created_at" := SessionManager.isoformat 900]> (<["user_id" := PStr user]> ∅)).

Definition session_store (user : string) : world :=
  set_db (<["session:s-1" := Entry (RJson (session_record user)) (Some 87300)]> ∅) (boot 1000).

End ScenarioData.

(** * More of auth.py and of main.py *)

(** ** auth.py: the role guards *)

(** [str(roles)] for role names without quotes or backslashes *)
Definition repr_roles (roles : list string) : string :=
  "[" +:+ String.concat ", " (map (fun r => "'" +:+ r +:+ "'") roles) +:+ "]".

Section Guards.

Context `{Env}.

Definition require_role (role : string) (credentials : jwt.token) : M AuthUser :=
  let* current_user := get_current_user credentials in
  if negb (has_role current_user role)
  then forbidden ("Role '" +:+ role +:+ "' required")
  else ret current_user.

Definition require_any_role (roles : list string) (credentials : jwt.token) : M AuthUser :=
  let* current_user := get_current_user credentials in
  if negb (has_any_role current_user roles)
  then forbidden ("One of roles " +:+ repr_roles roles +:+ " required")
  else ret current_user.

End Guards.

(** ** main.py: login, logout and the health check *)

Definition HTTP_400_BAD_REQUEST : Z := 400.

(** [models.ApiResponse]: [timestamp] and [request_id] are filled in by
    their default factories, the clock and a fresh uuid. *)
Record ApiResponse (A : Type) : Type := mkApiResponse {
  success : bool;
  data : A;
  timestamp : Z;
  response_request_id : string
}.

Arguments mkApiResponse {A} _ _ _ _.

Arguments success {A} _.

Arguments data {A} _.

(** The [data] of a successful login. *)
Record LoginData : Type := mkLoginData {
  login_access_token : jwt.token;
  login_refresh_token : jwt.token;
  login_token_type : string;
  login_user : list (string * pyval)
}.

(** [models.HealthCheck] *)
Record HealthCheck : Type := mkHealthCheck {
  status : string;
  health_timestamp : Z;
  version : string;
  environment : string;
  services : gmap string bool
}.

(** [PING] *)
Definition redis_ping : M unit := Redis.command (fun now d => (Ret tt, d)).

(** [database.py], [DatabaseManager.health_check]; [connect] stands for
    opening a connection and running the probe query. *)
Definition db_health_check (connect : M unit) : M bool :=
  try_except (exec connect in ret true)
    any_Exception
    (fun e => exec logger_error "Database health check failed" e in ret false).

Section Endpoints.

Context `{Env}.

(** [uuid] is the request id that the response draws. *)
Definition login (uuid : string) (credentials : pydict) : M (ApiResponse LoginData) :=
  let email := py_get credentials "email" in
  let password := py_get credentials "password" in
  if negb (truthy email) || negb (truthy password)
  then raise (HTTPException HTTP_400_BAD_REQUEST "Email and password required")
  else
    (* Mock user validation *)
    if py_eq email (PStr "admin@tournament.com") && py_eq password (PStr "admin123")
    then
      let token_data : pydict :=
        <["role" := PStr "admin"]>
          (<["email" := email]> (<["sub" := PStr "admin-user-id"]> ∅)) in
      let* access_token := TokenManager.create_access_token token_data None in
      let* refresh_token := TokenManager.create_refresh_token token_data in
      let* now := utcnow_timestamp in
      ret (mkApiResponse true
             (mkLoginData access_token refresh_token "bearer"
                [("id", PStr "admin-user-id"); ("email", email); ("role", PStr "admin")])
             now uuid)
    else raise (HTTPException HTTP_401_UNAUTHORIZED "Invalid credentials").

(** The endpoint body; [current_user] is what [Depends(get_current_user)]
    resolved. The token itself is not blacklisted. *)
Definition logout (uuid : string) (current_user : AuthUser) : M (ApiResponse json) :=
  exec (if truthy (session_id current_user)
        then SessionManager.delete_session (py_str (session_id current_user))
        else ret tt) in
  let* now := utcnow_timestamp in
  ret (mkApiResponse true (JDict [("message", JStr "Successfully logged out")]) now uuid).

(** [probe] stands for [http_client.get(url, timeout=5.0)]: the status code
    of the answer, or the exception of the transport. [env] is the
    ENVIRONMENT setting. *)
Definition health_check (env : string) (connect : M unit)
    (probe : string -> outcome Z) : M HealthCheck :=
  (* Check database *)
  let* database :=
    try_except (db_health_check connect) any_Exception (fun _ => ret false) in
  (* Check Redis *)
  let* redis := try_except (exec redis_ping in ret true) any_Exception (fun _ => ret false) in
  (* Check microservices *)
  let checked : gmap string bool :=
    (fun service_url =>
       match probe (service_url +:+ "/health") with
       | Ret code => code =? 200
       | Raise _ => false
       end) <$> SERVICE_URLS in
  let services := checked ∪ <["redis" := redis]> (<["database" := database]> ∅) in
  (* Determine overall status *)
  let all_healthy := bool_decide (map_Forall (fun _ up => up = true) services) in
  let status_text := if all_healthy then "healthy" else "unhealthy" in
  let* now := utcnow_timestamp in
  ret (mkHealthCheck status_text now Gateway.VERSION env services).

End Endpoints.

(** ** Calls of the rate limiter over time *)

(** One call of [check_rate_limit] after each of the given numbers of
    seconds has passed. *)
Fixpoint rate_limit_calls (key : string) (limit window : Z) (gaps : list nat) (w : world)
  : list (outcome bool) * world :=
  match gaps with
  | [] => ([], w)
  | gap :: rest =>
      let r := RateLimiter.check_rate_limit key limit window
                 (set_clock (clock w + Z.of_nat gap) w) in
      let rs := rate_limit_calls key limit window rest (snd r) in
      (fst r :: fst rs, snd rs)
  end.

(** The store [a] seconds into a series of calls one second apart that
    began on an empty key: the key holds one entry for each accepted call,
    [limit] at most, stamped within these seconds, and lives on to the end
    of the window that began with the series. *)
Definition paced (key : string) (limit window a : Z) (w : world) : Prop :=
  link w = [] /\ 0 <= a /\
  exists z : gmap string Z,
    (forall m s, z !! m = Some s -> m = pretty s /\ clock w - a < s <= clock w) /\
    Z.of_nat (size z) = Z.min a (Z.max 0 limit) /\
    ((z = ∅ /\ Redis.fetch (clock w) (db w) ("rate_limit:" +:+ key) = None) \/
     (exists ex, db w !! ("rate_limit:" +:+ key) = Some (Entry (RZSet z) (Some ex)) /\
                 clock w - a + window < ex)).

(** ** Header names as the server hands them over *)

Definition is_upper (c : ascii) : bool :=
  (65 <=? nat_of_ascii c)%nat && (nat_of_ascii c <=? 90)%nat.

(** No capital letter: the ASGI server gives the names of the request
    headers in lower case. *)
Fixpoint lower_case (s : string) : bool :=
  match s with
  | EmptyString => true
  | String c s' => negb (is_upper c) && lower_case s'
  end.

(** The names under which [proxy_to_service] writes headers of its own. *)
Definition gateway_headers : list string :=
  ["X-Request-ID"; "X-Forwarded-For"; "X-User-ID"; "X-User-Email"; "X-User-Role"].

(** ** Further scenarios in the default environment *)

Section FurtherScenarioData.
Local Existing Instance default_env.

(** The key of the client of [get_tournaments], filled by another writer
    with a hundred members ten seconds ago. *)
Definition hundred_members : gmap string Z :=
  list_to_map ((fun i : Z => (pretty i, 990)) <$> seqZ 0 100).

Definition crowded : world :=
  set_db (<["rate_limit:10.0.0.7:curl/8.5" := Entry (RZSet hundred_members) None]> ∅)
         (boot 1000).

(** A signed token without [exp], as a service account would hold. *)
Definition service_token : jwt.token :=
  jwt.encode (claims_of "reporting" "viewer") JWT_SECRET.

Definition token_with_jti (j : string) : jwt.token :=
  token_of (TokenManager.create_access_token
              (<["jti" := PStr j]> (claims_of "user-1" "viewer")) None)
           (boot 1000).

(** A store in which user-1 has the session s-1. *)
Definition with_session : world := session_store "user-1".

Definition viewer_user (session : pyval) : AuthUser :=
  mkAuthUser (PStr "user-1") (PStr "user-1@example.org") (PStr "viewer")
             [Permission.VIEW_TOURNAMENT] session ∅.

Definition admin_credentials : pydict :=
  <["password" := PStr "admin123"]> (<["email" := PStr "admin@tournament.com"]> ∅).

(** A host in a zone five hours west of Greenwich. *)
Definition eastern_env : Env := {|
  UTC_OFFSET := -18000;
  JWT_SECRET := JWT_SECRET;
  JWT_ACCESS_TOKEN_EXPIRE_MINUTES := JWT_ACCESS_TOKEN_EXPIRE_MINUTES;
  JWT_REFRESH_TOKEN_EXPIRE_DAYS := JWT_REFRESH_TOKEN_EXPIRE_DAYS;
  SERVICE_URLS := SERVICE_URLS;
  hs256 := hs256;
  b64_json := b64_json;
  expired_at_exp := expired_at_exp
|}.

(** The access token of user-1 as that host makes it when it reads second
    20000: 2000 seconds after the epoch, good for half an hour. *)
Definition eastern_token : jwt.token :=
  token_of (@TokenManager.create_access_token eastern_env (claims_of "user-1" "viewer") None)
           (boot 20000).

(** A request whose sender has chosen identity headers of its own. *)
Definition forged_request : Request :=
  mkRequest "GET" "/api/v1/tournaments"
    [("host", "gateway"); ("x-user-role", "admin"); ("x-request-id", "chosen");
     ("connection", "keep-alive")]
    "10.0.0.7" [] "" "req-1".

(** A service that cannot be reached, and one that answers with a page
    that is no JSON. *)
Definition unreachable (o : Outbound) : M ServiceResponse := raise RequestError.

Definition garbled (o : Outbound) : M ServiceResponse :=
  ret (mkServiceResponse 502 ∅ (OtherText "<html>Bad Gateway</html>")).

End FurtherScenarioData.

(** * Properties *)

(** ** Running Redis commands over a healthy link *)

Lemma world_eta (w : world) :
  World (clock w) (db w) (link w) (log w) (request_count w) (service_request_count w) = w.
Proof. by destruct w. Qed.

Lemma command_healthy {A} (f : Z -> redis_db -> outcome A * redis_db) (w : world) :
  link w = [] ->
  Redis.command f w = (fst (f (clock w) (db w)), set_db (snd (f (clock w) (db w))) w).
Proof.
  intros Hl. unfold Redis.command. rewrite Hl. simpl.
  destruct (f (clock w) (db w)) as [r d]. simpl. f_equal.
  unfold set_db, set_link. simpl. by rewrite <- Hl.
Qed.

Lemma command_down {A} (f : Z -> redis_db -> outcome A * redis_db) (w : world) rest :
  link w = false :: rest ->
  Redis.command f w = (Raise ConnectionError, set_link rest w).
Proof. intros Hl. unfold Redis.command. by rewrite Hl. Qed.

Lemma set_db_set_db d d' w : set_db d (set_db d' w) = set_db d w.
Proof. done. Qed.

(** One command of a run whose link stays healthy. *)
Ltac redis_step :=
  unfold bind at 1; rewrite command_healthy by (simpl; assumption);
  cbn [clock db set_db].

Lemma fetch_insert_eq now (d : redis_db) k e :
  Redis.live now e = true -> Redis.fetch now (<[k := e]> d) k = Some e.
Proof. intros Hl. unfold Redis.fetch. by rewrite lookup_insert_eq, Hl. Qed.

Lemma fetch_insert_ne now (d : redis_db) k k' e :
  k ≠ k' -> Redis.fetch now (<[k := e]> d) k' = Redis.fetch now d k'.
Proof. intros Hne. unfold Redis.fetch. by rewrite lookup_insert_ne. Qed.

Lemma fetch_delete_eq now (d : redis_db) k : Redis.fetch now (delete k d) k = None.
Proof. unfold Redis.fetch. by rewrite lookup_delete_eq. Qed.

Lemma fetch_Some_live now (d : redis_db) k e :
  Redis.fetch now d k = Some e -> d !! k = Some e /\ Redis.live now e = true.
Proof.
  unfold Redis.fetch. destruct (d !! k) as [e'|]; [|done].
  destruct (Redis.live now e') eqn:Hl; [|done]. by intros [= ->].
Qed.

(** ** The sliding window of [check_rate_limit] *)

Lemma check_rate_limit_run (w : world) (key : string) (limit window : Z) :
  link w = [] -> well_typed w key ->
  RateLimiter.check_rate_limit key limit window w =
    (Ret (negb (limit <=? Z.of_nat (size (in_window (clock w) window (entries w key))))),
     set_db (window_db w key limit window) w).
Proof.
  intros Hl Hty. unfold RateLimiter.check_rate_limit, window_db, entries.
  unfold well_typed in Hty.
  set (k := "rate_limit:" +:+ key) in *. set (now := clock w) in *.
  unfold bind at 1. unfold utcnow_timestamp. fold now.
  unfold Redis.zremrangebyscore, Redis.zcard, Redis.zadd, Redis.expire.
  redis_step. fold now.
  destruct (Redis.fetch now (db w) k) as [[v ex]|] eqn:Hf.
  - destruct (Hty _ eq_refl) as [z Hz]. simpl in Hz. subst v.
    fold (in_window now window z). set (z' := in_window now window z).
    apply fetch_Some_live in Hf as [Hk Hlive].
    assert (Hlive' : forall s, Redis.live now (Entry s ex) = true) by done.
    cbn [fst snd]. redis_step. fold now.
    destruct (decide (z' = ∅)) as [He|Hne].
    + (* the set is emptied and the key removed *)
      rewrite fetch_delete_eq. cbn [fst snd].
      rewrite He, map_size_empty. change (Z.of_nat 0) with 0.
      destruct (limit <=? 0) eqn:Hlim; cbn [negb].
      * unfold ret. by rewrite !set_db_set_db.
      * redis_step. fold now. rewrite fetch_delete_eq. cbn [fst snd].
        redis_step. fold now. rewrite fetch_insert_eq by done. cbn [fst snd].
        unfold ret. rewrite !set_db_set_db. do 2 f_equal.
        destruct (window <=? 0).
        -- by rewrite delete_insert_eq, delete_delete_eq.
        -- by rewrite insert_insert_eq, insert_delete_eq, insert_empty.
    + rewrite fetch_insert_eq by done. cbn [fst snd].
      destruct (limit <=? Z.of_nat (size z')) eqn:Hlim; cbn [negb].
      * unfold ret. by rewrite !set_db_set_db.
      * redis_step. fold now. rewrite fetch_insert_eq by done. cbn [fst snd].
        redis_step. fold now. rewrite fetch_insert_eq by done. cbn [fst snd value].
        unfold ret. rewrite !set_db_set_db. do 2 f_equal.
        destruct (window <=? 0).
        -- by rewrite !delete_insert_eq.
        -- by rewrite !insert_insert_eq.
  - cbn [fst snd]. unfold in_window. rewrite map_filter_empty, map_size_empty.
    change (Z.of_nat 0) with 0.
    redis_step. fold now. rewrite Hf. cbn [fst snd].
    destruct (limit <=? 0) eqn:Hlim; cbn [negb].
    + unfold ret. by rewrite !set_db_set_db.
    + redis_step. fold now. rewrite Hf. cbn [fst snd].
      redis_step. fold now. rewrite fetch_insert_eq by done. cbn [fst snd value].
      unfold ret. rewrite !set_db_set_db. do 2 f_equal.
      destruct (window <=? 0).
      * by rewrite delete_insert_eq.
      * by rewrite insert_insert_eq, insert_empty.
Qed.

(** A rejected call records nothing: the entries are those that eviction
    left. *)
Lemma check_rate_limit_reject (w : world) (key : string) (limit window : Z) :
  link w = [] -> well_typed w key ->
  limit <= Z.of_nat (size (in_window (clock w) window (entries w key))) ->
  let r := RateLimiter.check_rate_limit key limit window w in
  fst r = Ret false /\
  entries (snd r) key = in_window (clock w) window (entries w key).
Proof.
  intros Hl Hty Hfull. cbn zeta. rewrite check_rate_limit_run by done.
  cbn [fst snd]. apply Z.leb_le in Hfull as Hb. rewrite Hb. split; [done|].
  unfold window_db. rewrite Hb. unfold entries. cbn [clock db set_db].
  set (k := "rate_limit:" +:+ key). set (now := clock w).
  destruct (Redis.fetch now (db w) k) as [[v ex]|] eqn:Hf.
  - destruct (Hty _ Hf) as [z Hz]. simpl in Hz. subst v.
    apply fetch_Some_live in Hf as [Hk Hlive].
    destruct (decide (in_window now window z = ∅)) as [He|Hne].
    + by rewrite fetch_delete_eq, He.
    + by rewrite fetch_insert_eq.
  - rewrite Hf. unfold in_window. by rewrite map_filter_empty.
Qed.

(** An accepted call evicts, then records [now] under the member
    [str(now)], and the key expires [window] seconds later. *)
Lemma check_rate_limit_accept (w : world) (key : string) (limit window : Z) :
  link w = [] -> well_typed w key -> 0 < window ->
  Z.of_nat (size (in_window (clock w) window (entries w key))) < limit ->
  let r := RateLimiter.check_rate_limit key limit window w in
  fst r = Ret true /\
  db (snd r) !! ("rate_limit:" +:+ key) =
    Some (Entry (RZSet (<[pretty (clock w) := clock w]>
                          (in_window (clock w) window (entries w key))))
                (Some (clock w + window))).
Proof.
  intros Hl Hty Hwin Hroom. cbn zeta. rewrite check_rate_limit_run by done.
  cbn [fst snd]. apply Z.leb_gt in Hroom as Hb. rewrite Hb. split; [done|].
  unfold window_db. cbn [clock db set_db]. rewrite Hb.
  apply Z.leb_gt in Hwin as ->. by rewrite lookup_insert_eq.
Qed.

(** Once every recorded entry is older than the window, the next call is
    accepted. *)
Lemma check_rate_limit_after_window (w : world) (key : string) (limit window : Z) :
  link w = [] -> well_typed w key -> 1 <= limit ->
  (forall m s, entries w key !! m = Some s -> 0 <= s <= clock w - window) ->
  fst (RateLimiter.check_rate_limit key limit window w) = Ret true.
Proof.
  intros Hl Hty Hlim Hold. rewrite check_rate_limit_run by done. cbn [fst].
  assert (in_window (clock w) window (entries w key) = ∅) as ->.
  { apply map_empty_filter. intros m s Hms Hkeep. apply Hkeep.
    simpl. by apply (Hold m). }
  rewrite map_size_empty. change (Z.of_nat 0) with 0.
  assert ((limit <=? 0) = false) as -> by (apply Z.leb_gt; lia). done.
Qed.

(** Two calls in the same second share their member: the second one,
    when accepted, leaves the count where it was. *)
Lemma check_rate_limit_same_second (w : world) (key : string) (limit window : Z) :
  link w = [] -> well_typed w key -> 0 < window ->
  let z := in_window (clock w) window (entries w key) in
  is_Some (z !! pretty (clock w)) ->
  Z.of_nat (size z) < limit ->
  let r := RateLimiter.check_rate_limit key limit window w in
  fst r = Ret true /\ size (entries (snd r) key) = size z.
Proof.
  intros Hl Hty Hwin z [s Hs] Hroom. cbn zeta.
  destruct (check_rate_limit_accept w key limit window) as [Hr Hdb]; [done..|].
  split; [done|].
  rewrite check_rate_limit_run in Hdb |- * by done. cbn [snd] in *.
  unfold entries at 1. unfold Redis.fetch. cbn [clock db set_db] in *.
  rewrite Hdb. cbn [Redis.live expires_at].
  assert ((clock w <? clock w + window) = true) as -> by (apply Z.ltb_lt; lia).
  fold z. by rewrite map_size_insert_Some.
Qed.

(** An accepted call in a second that has no entry yet adds one entry. *)
Lemma check_rate_limit_fresh_second (w : world) (key : string) (limit window : Z) :
  link w = [] -> well_typed w key -> 0 < window ->
  let z := in_window (clock w) window (entries w key) in
  z !! pretty (clock w) = None ->
  Z.of_nat (size z) < limit ->
  let r := RateLimiter.check_rate_limit key limit window w in
  fst r = Ret true /\ size (entries (snd r) key) = S (size z).
Proof.
  intros Hl Hty Hwin z Hfresh Hroom. cbn zeta.
  destruct (check_rate_limit_accept w key limit window) as [Hr Hdb]; [done..|].
  split; [done|].
  rewrite check_rate_limit_run in Hdb |- * by done. cbn [snd] in *.
  unfold entries at 1. unfold Redis.fetch. cbn [clock db set_db] in *.
  rewrite Hdb. cbn [Redis.live expires_at].
  assert ((clock w <? clock w + window) = true) as -> by (apply Z.ltb_lt; lia).
  fold z. by rewrite map_size_insert_None.
Qed.

(** A window of [window] seconds never holds more than [window] entries. *)
Lemma stamped_window_size (now window : Z) (z : gmap string Z) :
  0 <= window -> stamped now z ->
  Z.of_nat (size (in_window now window z)) <= window.
Proof.
  intros Hwin Hst.
  assert (dom (in_window now window z)
            ⊆ (list_to_set (pretty <$> seqZ (now - window + 1) window) : gset string))
    as Hsub.
  { intros m [s Hms]%elem_of_dom. unfold in_window in Hms.
    apply map_lookup_filter_Some in Hms as [Hms Hkeep]. simpl in Hkeep.
    destruct (Hst m s Hms) as [-> Hrange].
    apply elem_of_list_to_set, list_elem_of_fmap. exists s. split; [done|].
    apply elem_of_seqZ. lia. }
  apply subseteq_size in Hsub. rewrite size_dom in Hsub.
  rewrite size_list_to_set in Hsub
    by (apply NoDup_fmap_2; [apply _ | apply NoDup_seqZ]).
  rewrite length_fmap, length_seqZ in Hsub. lia.
Qed.

(** The entries stay stamped as the clock moves on. *)
Lemma stamped_later (w : world) (key : string) (t : Z) :
  stamped (clock w) (entries w key) -> clock w <= t ->
  stamped t (entries (set_clock t w) key).
Proof.
  intros Hst Ht m s Hms. unfold entries, Redis.fetch in *. cbn [clock db set_clock] in *.
  destruct (db w !! ("rate_limit:" +:+ key)) as [[v ex]|]; [|done].
  destruct (Redis.live t (Entry v ex)) eqn:Hlive; [|done].
  assert (Redis.live (clock w) (Entry v ex) = true) as Hlive'.
  { unfold Redis.live in *. simpl in *. destruct ex; [lia|done]. }
  rewrite Hlive' in Hst. destruct (Hst m s Hms) as [-> ?]. split; [done|lia].
Qed.

(** With a limit above the window length in seconds, as the 100 requests per
    60 seconds of the gateway, no call is ever rejected: the entries stay
    stamped, and there are never enough of them. *)
Lemma check_rate_limit_never_rejects (w : world) (key : string) (limit window : Z) :
  link w = [] -> well_typed w key -> 0 < window < limit -> 0 <= clock w ->
  stamped (clock w) (entries w key) ->
  let r := RateLimiter.check_rate_limit key limit window w in
  fst r = Ret true /\ stamped (clock w) (entries (snd r) key).
Proof.
  intros Hl Hty Hwin Hepoch Hst. cbn zeta.
  pose proof (stamped_window_size (clock w) window _ ltac:(lia) Hst) as Hsize.
  destruct (check_rate_limit_accept w key limit window) as [Hr Hdb];
    [done | done | lia | lia |].
  split; [done|].
  rewrite check_rate_limit_run in Hdb |- * by done. cbn [snd] in *.
  unfold entries at 1. unfold Redis.fetch. cbn [clock db set_db] in *.
  rewrite Hdb. cbn [Redis.live expires_at].
  assert ((clock w <? clock w + window) = true) as -> by (apply Z.ltb_lt; lia).
  intros m s [[<- <-]|[Hne Hms]]%lookup_insert_Some.
  - split; [done|lia].
  - unfold in_window in Hms. apply map_lookup_filter_Some in Hms as [Hms _].
    by apply Hst.
Qed.

(** C1 (defect). The claim holds that after [limit] accepted calls within one
    window the next call within the window is rejected. The member of the
    sorted set is [str(current_time)], so calls in one second share one
    entry: with key ip:ua, limit 2 and window 60, three calls in second 1000
    are all accepted, and the set holds a single entry afterwards. *)
Theorem check_rate_limit_three_calls_one_second :
  let call := RateLimiter.check_rate_limit "ip:ua" 2 60 in
  let r1 := call (boot 1000) in
  let r2 := call (snd r1) in
  let r3 := call (snd r2) in
  fst r1 = Ret true /\ fst r2 = Ret true /\ fst r3 = Ret true /\
  entries (snd r3) "ip:ua" = {[ "1000" := 1000 ]}.
Proof. vm_compute. done. Qed.

(** ** Tokens *)

Section TokenRuns.
Context `{Env}.

Lemma decode_unverified (t : jwt.token) (w : world) :
  jwt.decode t JWT_SECRET false w =
    if well_signed t then (Ret (token_claims t), w) else (Raise InvalidTokenError, w).
Proof.
  destruct t as [j|s]; [|done]. simpl.
  by destruct (String.eqb _ _).
Qed.

Lemma decode_unsigned (t : jwt.token) (v : bool) (w : world) :
  well_signed t = false -> jwt.decode t JWT_SECRET v w = (Raise InvalidTokenError, w).
Proof.
  destruct t as [j|s]; [|done]. simpl. by intros ->.
Qed.

Lemma decode_verified (t : jwt.token) (e : Z) (w : world) :
  well_signed t = true -> expiry t = Some e ->
  jwt.decode t JWT_SECRET true w =
    if jwt.expired e (clock w + UTC_OFFSET) then (Raise ExpiredSignatureError, w)
    else (Ret (token_claims t), w).
Proof.
  destruct t as [j|s]; [|done]. unfold expiry. simpl. intros -> He. simpl.
  destruct (jwt.claims j !! "exp") as [[| |n|]|]; try done.
  injection He as ->. unfold bind, jwt.utc_epoch.
  by destruct (jwt.expired e (clock w + UTC_OFFSET)).
Qed.

Lemma encode_well_signed (c : pydict) : well_signed (jwt.encode c JWT_SECRET) = true.
Proof. simpl. apply String.eqb_refl. Qed.

(** The first 16 characters of a token that [jwt.encode] makes are those
    of the fixed header, whatever the claims. *)
Lemma encode_prefix (c : pydict) (key : string) :
  py_prefix 16 (jwt.text (jwt.encode c key)) = "eyJhbGciOiJIUzI1".
Proof. reflexivity. Qed.

Lemma is_token_blacklisted_unsigned (t : jwt.token) (w : world) :
  well_signed t = false ->
  TokenManager.is_token_blacklisted t w = (Ret true, w).
Proof.
  intros Hs. unfold TokenManager.is_token_blacklisted, try_except, bind.
  by rewrite decode_unsigned.
Qed.

Lemma is_token_blacklisted_down (t : jwt.token) (w : world) rest :
  well_signed t = true -> link w = false :: rest ->
  TokenManager.is_token_blacklisted t w = (Ret true, set_link rest w).
Proof.
  intros Hs Hl. unfold TokenManager.is_token_blacklisted, try_except, bind.
  rewrite decode_unverified, Hs. unfold Redis.exists_.
  by rewrite (command_down _ _ rest).
Qed.

(** With the store answering, a well-signed token is blacklisted exactly
    when a live record sits under its key. *)
Lemma is_token_blacklisted_up (t : jwt.token) (w : world) :
  well_signed t = true -> (link w = [] \/ exists rest, link w = true :: rest) ->
  TokenManager.is_token_blacklisted t w =
    (Ret (bool_decide (is_Some (Redis.fetch (clock w) (db w)
            (TokenManager.blacklist_key (token_claims t) t)))),
     set_link (tail (link w)) w).
Proof.
  intros Hs Hl. unfold TokenManager.is_token_blacklisted, try_except, bind.
  rewrite decode_unverified, Hs. unfold Redis.exists_, Redis.command.
  destruct Hl as [Hl|[rest Hl]]; rewrite Hl; simpl;
    f_equal; unfold set_db, set_link; simpl; by destruct w.
Qed.

(** Revoking a token that PyJWT still accepts and whose [exp] lies ahead
    of the reading of the host, the store answering, writes the record for
    [exp] less that reading: on the scale of the [clock] it ends at [exp]. *)
Lemma blacklist_token_run (t : jwt.token) (e : Z) (w : world) :
  well_signed t = true -> expiry t = Some e -> link w = [] ->
  clock w + UTC_OFFSET < e -> 0 <= clock w < e ->
  TokenManager.blacklist_token t None w =
    (Ret tt,
     set_db (<[TokenManager.blacklist_key (token_claims t) t :=
                 Entry (RStr "1") (Some e)]> (db w)) w).
Proof.
  intros Hs He Hl Hepoch Ht. unfold TokenManager.blacklist_token, try_except.
  unfold bind at 1. rewrite (decode_verified t e) by done.
  assert (jwt.expired e (clock w + UTC_OFFSET) = false) as ->.
  { unfold jwt.expired. destruct expired_at_exp; lia. }
  unfold expiry in He. unfold py_get.
  destruct (token_claims t !! "exp") as [[| |n|]|]; try done.
  injection He as ->. simpl.
  assert ((e =? 0) = false) as -> by lia. simpl.
  unfold bind, utcnow_timestamp.
  assert ((0 <? e - clock w) = true) as -> by lia.
  unfold Redis.setex. rewrite command_healthy by done. simpl.
  assert ((e - clock w <=? 0) = false) as -> by lia. simpl.
  by replace (clock w + (e - clock w)) with e by lia.
Qed.

(** Revoking a token that has expired writes nothing: decoding already
    fails, and the failure is logged. *)
Lemma blacklist_token_expired (t : jwt.token) (e : Z) (w : world) (expires_in : option Z) :
  well_signed t = true -> expiry t = Some e -> e < clock w + UTC_OFFSET ->
  TokenManager.blacklist_token t expires_in w =
    (Ret tt, add_log "Failed to blacklist token" ExpiredSignatureError w).
Proof.
  intros Hs He Ht. unfold TokenManager.blacklist_token, try_except.
  unfold bind at 1. rewrite (decode_verified t e) by done.
  assert (jwt.expired e (clock w + UTC_OFFSET) = true) as ->.
  { unfold jwt.expired. destruct expired_at_exp; lia. }
  done.
Qed.

(** Where the reading of the host is at or past [exp] while PyJWT still
    accepts the token, as on a host west of Greenwich for a token of less
    than the offset to live, the time to live is not positive: nothing is
    written and nothing is logged. *)
Lemma blacklist_token_behind (t : jwt.token) (e : Z) (w : world) (expires_in : option Z) :
  well_signed t = true -> expiry t = Some e -> e ≠ 0 ->
  clock w + UTC_OFFSET < e -> e <= clock w ->
  TokenManager.blacklist_token t expires_in w = (Ret tt, w).
Proof.
  intros Hs He Hne Hepoch Ht. unfold TokenManager.blacklist_token, try_except.
  unfold bind at 1. rewrite (decode_verified t e) by done.
  assert (jwt.expired e (clock w + UTC_OFFSET) = false) as ->.
  { unfold jwt.expired. destruct expired_at_exp; lia. }
  unfold expiry in He. unfold py_get.
  destruct (token_claims t !! "exp") as [[| |n|]|]; try done.
  injection He as ->. simpl.
  assert ((e =? 0) = false) as -> by lia. simpl.
  unfold bind, utcnow_timestamp.
  by assert ((0 <? e - clock w) = false) as -> by lia.
Qed.

(** ** Running the resolver *)

Lemma verify_token_ok (t : jwt.token) (w : world) :
  verifies (clock w) t = true ->
  TokenManager.verify_token t w = (Ret (token_claims t), w).
Proof.
  unfold verifies. intros [Hs He]%andb_true_iff.
  unfold TokenManager.verify_token, try_except.
  destruct t as [j|s]; [|done]. simpl in *. rewrite Hs. simpl.
  destruct (jwt.claims j !! "exp") as [[| |e|]|]; try done.
  unfold bind, jwt.utc_epoch. by apply negb_true_iff in He as ->.
Qed.

Lemma verify_token_fail (t : jwt.token) (w : world) :
  verifies (clock w) t = false ->
  exists detail,
    TokenManager.verify_token t w = (Raise (HTTPException HTTP_401_UNAUTHORIZED detail), w).
Proof.
  unfold verifies, TokenManager.verify_token, try_except.
  destruct t as [j|s]; [|by eexists]. simpl.
  destruct (String.eqb _ _); simpl; [|by eexists].
  destruct (jwt.claims j !! "exp") as [[| |e|]|]; try done; try by eexists.
  unfold bind, jwt.utc_epoch. intros ->%negb_false_iff. by eexists.
Qed.

Lemma get_current_user_revoked (t : jwt.token) (w w1 : world) :
  TokenManager.is_token_blacklisted t w = (Ret true, w1) ->
  get_current_user t w =
    (Raise (HTTPException HTTP_401_UNAUTHORIZED "Token has been revoked"), w1).
Proof. intros Hb. unfold get_current_user. unfold bind at 1. by rewrite Hb. Qed.

(** [get_session] with the store answering: a session that is found is
    not returned, because the write that is to move its expiry is refused;
    the record stays as it was. *)
Lemma get_session_run (sid : string) (w : world) :
  link w = [] ->
  SessionManager.get_session sid w =
    match Redis.fetch (clock w) (db w) ("session:" +:+ sid) with
    | None => (Ret None, w)
    | Some (Entry (RJson d) _) =>
        (Raise (ResponseError "value is not an integer or out of range"), w)
    | Some (Entry (RStr s) _) =>
        if String.eqb s "" then (Ret None, w) else (Raise ValueError, w)
    | Some (Entry (RZSet _) _) => (Raise Redis.WRONGTYPE, w)
    end.
Proof.
  intros Hl. unfold SessionManager.get_session, Redis.get.
  redis_step.
  assert (set_db (db w) w = w) as Hid by (by destruct w).
  destruct (Redis.fetch (clock w) (db w) ("session:" +:+ sid)) as [[[s|d|z] ex]|];
    cbn [fst snd]; rewrite Hid; try done.
  - by destruct (String.eqb s "").
  - unfold bind at 1. unfold utcnow_timestamp. unfold Redis.setex.
    redis_step. cbn [fst snd SessionManager.SESSION_TTL]. by rewrite Hid.
Qed.

(** What is left of [get_current_user] once the blacklist check and the
    verification have passed. *)
Lemma get_current_user_verified (t : jwt.token) (w : world) :
  link w = [] -> well_signed t = true -> revoked w t = false ->
  verifies (clock w) t = true ->
  let c := token_claims t in
  get_current_user t w =
    if negb (py_eq (py_get c "type") (PStr "access"))
    then (Raise (HTTPException HTTP_401_UNAUTHORIZED "Invalid token type"), w)
    else if negb (truthy (py_get c "sub")) || negb (truthy (py_get c "email"))
              || negb (truthy (py_get c "role"))
    then (Raise (HTTPException HTTP_401_UNAUTHORIZED "Invalid token payload"), w)
    else
      let init :=
        AuthUser_init (py_get c "sub") (py_get c "email") (py_get c "role")
          (role_permissions (py_get c "role")) (py_get c "session_id")
          (filter (fun kv : string * pyval => kv.1 ∉ consumed_claims) c) in
      if truthy (py_get c "session_id") then
        match SessionManager.get_session (py_str (py_get c "session_id")) w with
        | (Ret None, w') =>
            (Raise (HTTPException HTTP_401_UNAUTHORIZED "Invalid session"), w')
        | (Ret (Some d), w') =>
            if bool_decide (d = ∅) || negb (py_eq (py_get d "user_id") (py_get c "sub"))
            then (Raise (HTTPException HTTP_401_UNAUTHORIZED "Invalid session"), w')
            else init w'
        | (Raise e, w') => (Raise e, w')
        end
      else init w.
Proof.
  intros Hl Hs Hr Hv c. unfold get_current_user.
  unfold bind at 1. rewrite is_token_blacklisted_up by auto.
  fold c. unfold revoked in Hr. fold c in Hr. rewrite Hr, Hl. cbn [tail].
  assert (set_link [] w = w) as -> by (destruct w; simpl in *; by subst).
  unfold bind at 1. rewrite verify_token_ok by done. fold c.
  destruct (negb (py_eq (py_get c "type") (PStr "access"))); [done|].
  destruct (negb (truthy (py_get c "sub")) || negb (truthy (py_get c "email"))
            || negb (truthy (py_get c "role"))); [done|].
  destruct (truthy (py_get c "session_id")); [|done].
  unfold bind at 1. unfold bind at 1.
  destruct (SessionManager.get_session _ w) as [[[d|]|e] w']; try done.
  unfold unauthorized, raise, ret.
  by destruct (bool_decide (d = ∅) || negb (py_eq (py_get d "user_id") (py_get c "sub"))).
Qed.

(** ** Revocation *)

(** While a live record sits under the key of a token, resolving the
    token is refused, whatever the state of the link. *)
Lemma recorded_token_unauthorized (t : jwt.token) (w : world) :
  revoked w t = true ->
  fst (get_current_user t w) =
    Raise (HTTPException HTTP_401_UNAUTHORIZED "Token has been revoked").
Proof.
  intros Hr.
  destruct (well_signed t) eqn:Hs.
  - destruct (link w) as [|[] rest] eqn:Hl.
    + erewrite get_current_user_revoked; [done|].
      rewrite is_token_blacklisted_up by auto. unfold revoked in Hr. by rewrite Hr.
    + erewrite get_current_user_revoked; [done|].
      rewrite is_token_blacklisted_up by eauto. unfold revoked in Hr. by rewrite Hr.
    + erewrite get_current_user_revoked; [done|].
      by apply is_token_blacklisted_down.
  - erewrite get_current_user_revoked; [done|].
    by apply is_token_blacklisted_unsigned.
Qed.

(** Revocation in isolation: after [blacklist_token] on a valid token with
    a future expiry, as long as nothing else writes the record, every
    resolution before the expiry is refused although signature and
    expiry checks alone pass. *)
Lemma revoked_until_expiry (t : jwt.token) (e : Z) (w w' : world) :
  well_signed t = true -> expiry t = Some e -> link w = [] ->
  clock w + UTC_OFFSET < e -> 0 <= clock w < e ->
  db w' = db (snd (TokenManager.blacklist_token t None w)) ->
  clock w <= clock w' < e ->
  (clock w' + UTC_OFFSET < e -> verifies (clock w') t = true) /\
  fst (get_current_user t w') =
    Raise (HTTPException HTTP_401_UNAUTHORIZED "Token has been revoked").
Proof.
  intros Hs He Hl Hepoch Ht Hdb Ht'. split.
  - intros Hepoch'. unfold verifies. rewrite Hs. unfold expiry in He.
    destruct (token_claims t !! "exp") as [[| |n|]|]; try done.
    injection He as ->. unfold jwt.expired. simpl. destruct expired_at_exp; lia.
  - apply recorded_token_unauthorized. unfold revoked.
    rewrite Hdb, (blacklist_token_run t e) by done. cbn [snd db set_db].
    rewrite fetch_insert_eq; [by apply bool_decide_eq_true_2|].
    unfold Redis.live. simpl. lia.
Qed.

Lemma issued_shared_key (tok : jwt.token) :
  issued tok ->
  well_signed tok = true /\
  TokenManager.blacklist_key (token_claims tok) tok = SHARED_KEY.
Proof.
  intros (data & w0 & Hjti & Hmk).
  assert (exists c, tok = jwt.encode c JWT_SECRET /\ py_get c "jti" = py_get data "jti")
    as (c & -> & Hc).
  { destruct Hmk as [[delta Hmk]|Hmk];
      unfold TokenManager.create_access_token, TokenManager.create_refresh_token,
             bind, jwt.utc_epoch, ret in Hmk; simpl in Hmk;
      injection Hmk as <-; eexists; (split; [reflexivity|]);
      unfold py_get; by rewrite !lookup_insert_ne. }
  split; [apply encode_well_signed|].
  unfold TokenManager.blacklist_key, py_or. cbn [token_claims jwt.encode jwt.claims].
  rewrite Hc, Hjti. by rewrite encode_prefix.
Qed.

End TokenRuns.


(** ** Session binding *)

Section SessionBinding.

Context `{Env}.

(** The part of the session check that the code carries out: a
    well-signed, unexpired, unrevoked access token with subject, email and
    role that carries a [session_id] under which the store holds no live
    session is refused with 401. *)
Lemma absent_session_is_unauthorized (t : jwt.token) (w : world) :
  let c := token_claims t in
  link w = [] ->
  verifies (clock w) t = true ->
  revoked w t = false ->
  py_eq (py_get c "type") (PStr "access") = true ->
  truthy (py_get c "sub") = true ->
  truthy (py_get c "email") = true ->
  truthy (py_get c "role") = true ->
  truthy (py_get c "session_id") = true ->
  Redis.fetch (clock w) (db w) (session_key (py_get c "session_id")) = None ->
  get_current_user t w =
    (Raise (HTTPException HTTP_401_UNAUTHORIZED "Invalid session"), w).
Proof.
  intros c Hl Hv Hr Hty Hsub Hem Hro Hsid Hsess.
  assert (well_signed t = true) as Hs by (by apply andb_true_iff in Hv as [? _]).
  rewrite get_current_user_verified by done. fold c.
  rewrite Hty, Hsub, Hem, Hro, Hsid. cbn [negb orb].
  rewrite get_session_run by done. unfold session_key in Hsess. by rewrite Hsess.
Qed.

(** Where the store does hold a session under the id, the comparison of
    its [user_id] with the subject is not reached: the touch of the session
    is refused by the store, and that error leaves [get_current_user],
    whoever the session belongs to. The record is left as it was. *)
Lemma found_session_is_store_error (t : jwt.token) (w : world) (d : pydict) (ex : option Z) :
  let c := token_claims t in
  link w = [] ->
  verifies (clock w) t = true ->
  revoked w t = false ->
  py_eq (py_get c "type") (PStr "access") = true ->
  truthy (py_get c "sub") = true ->
  truthy (py_get c "email") = true ->
  truthy (py_get c "role") = true ->
  truthy (py_get c "session_id") = true ->
  Redis.fetch (clock w) (db w) (session_key (py_get c "session_id"))
    = Some (Entry (RJson d) ex) ->
  get_current_user t w =
    (Raise (ResponseError "value is not an integer or out of range"), w).
Proof.
  intros c Hl Hv Hr Hty Hsub Hem Hro Hsid Hsess.
  assert (well_signed t = true) as Hs by (by apply andb_true_iff in Hv as [? _]).
  rewrite get_current_user_verified by done. fold c.
  rewrite Hty, Hsub, Hem, Hro, Hsid. cbn [negb orb].
  rewrite get_session_run by done. unfold session_key in Hsess. by rewrite Hsess.
Qed.

End SessionBinding.

(** ** Tokens that do not verify *)

Lemma get_current_user_unverified `{Env} (t : jwt.token) (w : world) :
  link w = [] -> well_signed t = true -> revoked w t = false ->
  verifies (clock w) t = false ->
  exists detail,
    get_current_user t w = (Raise (HTTPException HTTP_401_UNAUTHORIZED detail), w).
Proof.
  intros Hl Hs Hr Hv. destruct (verify_token_fail t w Hv) as [detail Hd].
  exists detail. unfold get_current_user.
  unfold bind at 1. rewrite is_token_blacklisted_up by auto.
  unfold revoked in Hr. rewrite Hr, Hl. cbn [tail].
  assert (set_link [] w = w) as -> by (destruct w; simpl in *; by subst).
  unfold bind at 1. by rewrite Hd.
Qed.

(** ** Optional resolution *)

(** With the store answering, a constructible principal and no session
    to touch, [get_current_user] returns or raises 401. *)
Lemma get_current_user_outcome `{Env} (t : jwt.token) (w : world) :
  link w = [] -> constructible t -> session_free t w ->
  (exists u, fst (get_current_user t w) = Ret u) \/
  (exists detail,
     fst (get_current_user t w) = Raise (HTTPException HTTP_401_UNAUTHORIZED detail)).
Proof.
  intros Hl Hok Hfree.
  destruct (well_signed t) eqn:Hs.
  2:{ right. erewrite get_current_user_revoked by (by apply is_token_blacklisted_unsigned).
      by eexists. }
  destruct (revoked w t) eqn:Hr.
  { right. rewrite recorded_token_unauthorized by done. by eexists. }
  destruct (verifies (clock w) t) eqn:Hv.
  2:{ right. destruct (get_current_user_unverified t w) as [detail ->]; try done.
      by eexists. }
  rewrite get_current_user_verified by done. set (c := token_claims t).
  destruct (negb (py_eq (py_get c "type") (PStr "access"))); [right; by eexists|].
  destruct (negb (truthy (py_get c "sub")) || negb (truthy (py_get c "email"))
            || negb (truthy (py_get c "role"))); [right; by eexists|].
  cbn zeta. unfold AuthUser_init. unfold constructible in Hok. fold c in Hok. rewrite Hok.
  unfold session_free, session_key in Hfree. fold c in Hfree.
  destruct (truthy (py_get c "session_id")); [|left; by eexists].
  destruct Hfree as [?|Hnone]; [done|].
  rewrite get_session_run, Hnone by done. right. by eexists.
Qed.


(** ** The proxy *)

Section Proxy.

Context `{Env}.

Lemma pop_all_lookup {V} (names : list string) (h : gmap string V) (k : string) :
  Gateway.pop_all names h !! k = if bool_decide (k ∈ names) then None else h !! k.
Proof.
  unfold Gateway.pop_all. revert h.
  induction names as [|n names IH]; intros h; simpl; [done|].
  rewrite IH. destruct (decide (k = n)) as [->|Hne].
  - rewrite lookup_delete_eq.
    rewrite (bool_decide_eq_true_2 (n ∈ n :: names)) by apply list_elem_of_here.
    by destruct (bool_decide (n ∈ names)).
  - rewrite lookup_delete_ne by done.
    destruct (decide (k ∈ names)) as [Hin|Hnin].
    + rewrite !bool_decide_eq_true_2; [done | by apply list_elem_of_further | done].
    + rewrite !bool_decide_eq_false_2; [done | | done].
      by intros [?|?]%elem_of_cons.
Qed.

(** On the way down no hop-by-hop header is left, whatever the request
    carried. *)
Lemma forward_headers_no_hop_by_hop (request : Request) (user : option AuthUser)
    (h : string) :
  h ∈ Gateway.hop_by_hop -> Gateway.forward_headers request user !! h = None.
Proof.
  intros Hin. unfold Gateway.forward_headers. rewrite pop_all_lookup.
  by rewrite bool_decide_eq_true_2.
Qed.

(** On the way back the headers of the downstream response are relayed as
    they are: status, content and every header, hop-by-hop or not. *)
Lemma proxy_relays_downstream (http_client : Outbound -> M ServiceResponse)
    (request : Request) (service url path : string) (user : option AuthUser)
    (w w' : world) (resp : ServiceResponse) (j : json) :
  SERVICE_URLS !! service = Some url -> url ≠ "" ->
  map_Forall (fun _ v => is_Some (Gateway.header_text v))
             (Gateway.forward_headers request user) ->
  (forall o, http_client o w = (Ret resp, w')) ->
  Gateway.relay_content (svc_content resp) = ret j ->
  fst (Gateway.proxy_to_service http_client request service path user w) =
    Ret (JSONResponse (svc_status_code resp) j (svc_headers resp)).
Proof.
  intros Hurl Hne Hhdr Hcall Hjson. unfold Gateway.proxy_to_service.
  rewrite Hurl. apply String.eqb_neq in Hne as ->.
  unfold try_except. unfold bind at 1.
  rewrite bool_decide_eq_true_2 by done. rewrite Hcall.
  unfold bind at 1. unfold bind at 1. by rewrite Hjson.
Qed.

End Proxy.

(** ** The middleware *)

(** C8 (amended). When the store cannot be reached as the middleware checks
    admission, [check_rate_limit] raises the connection error and the
    middleware does not catch it: the request is not let through
    ([call_next] plays no part in the outcome), nothing is logged or
    counted, and the error leaves the middleware. *)
Theorem rate_limit_store_down_propagates (uuid : string) (request : Request)
    (call_next : Request -> M Response) (w : world) (rest : list bool) :
  link w = false :: rest ->
  Gateway.request_middleware uuid request call_next w =
    (Raise ConnectionError, set_link rest w).
Proof.
  intros Hl. unfold Gateway.request_middleware.
  unfold bind at 1. unfold RateLimiter.check_rate_limit.
  unfold bind at 1. unfold utcnow_timestamp.
  unfold bind at 1. unfold Redis.zremrangebyscore.
  by rewrite (command_down _ _ rest).
Qed.

(** The three exits of the middleware. The correlation id and the API
    version are set as response headers on what [call_next] returns, and
    only there. A 429 rejection carries the two rate-limit headers and
    nothing else, a 500 fallback no header at all; both carry the
    correlation id in their body. *)
Lemma terminal_response_headers (uuid : string) (request : Request)
    (call_next : Request -> M Response) (w : world) :
  let key := rate_limit_key request in
  let run := Gateway.request_middleware uuid request call_next w in
  (forall w1 r w2,
     RateLimiter.check_rate_limit key 100 60 w = (Ret true, w1) ->
     call_next (set_request_id uuid request) w1 = (Ret r, w2) ->
     exists resp,
       fst run = Ret resp /\
       headers resp !! "X-Request-ID" = Some uuid /\
       headers resp !! "X-API-Version" = Some Gateway.VERSION /\
       status_code resp = status_code r /\ content resp = content r /\
       (forall h, h ≠ "X-Request-ID" -> h ≠ "X-API-Version" ->
                  headers resp !! h = headers r !! h)) /\
  (forall w1 info w2,
     RateLimiter.check_rate_limit key 100 60 w = (Ret false, w1) ->
     RateLimiter.get_rate_limit_info key 100 60 w1 = (Ret info, w2) ->
     exists resp,
       fst run = Ret resp /\
       status_code resp = HTTP_429_TOO_MANY_REQUESTS /\
       headers resp =
         <["X-Rate-Limit-Reset" := pretty (RateLimiter.ri_reset_time info)]>
           (<["X-Rate-Limit-Remaining" := pretty (RateLimiter.ri_remaining info)]> ∅) /\
       headers resp !! "X-Request-ID" = None /\
       headers resp !! "X-API-Version" = None /\
       json_field "request_id" (content resp) = Some (JStr uuid)) /\
  (forall w1 e w2,
     RateLimiter.check_rate_limit key 100 60 w = (Ret true, w1) ->
     call_next (set_request_id uuid request) w1 = (Raise e, w2) ->
     exists resp,
       fst run = Ret resp /\
       status_code resp = HTTP_500_INTERNAL_SERVER_ERROR /\
       headers resp = ∅ /\
       json_field "request_id" (content resp) = Some (JStr uuid)).
Proof.
  cbn zeta. unfold rate_limit_key, Gateway.request_middleware.
  cbn [client_host set_request_id].
  replace (Gateway.header_get "user-agent" "unknown" (set_request_id uuid request))
    with (Gateway.header_get "user-agent" "unknown" request) by done.
  repeat split.
  - intros w1 r w2 Hcheck Hnext. unfold bind at 1. rewrite Hcheck. cbn [negb].
    unfold try_except, bind. rewrite Hnext. cbn [fst].
    eexists. split; [reflexivity|]. cbn [headers status_code content].
    repeat split.
    + by rewrite lookup_insert_ne, lookup_insert_eq.
    + by rewrite lookup_insert_eq.
    + intros h H1 H2. by rewrite !lookup_insert_ne.
  - intros w1 info w2 Hcheck Hinfo. unfold bind at 1. rewrite Hcheck. cbn [negb].
    unfold bind at 1. rewrite Hinfo. unfold bind, Gateway.count_request, ret.
    cbn [fst]. eexists. split; [reflexivity|]. done.
  - intros w1 e w2 Hcheck Hnext. unfold bind at 1. rewrite Hcheck. cbn [negb].
    unfold try_except. unfold bind at 1. rewrite Hnext.
    unfold any_Exception, bind, logger_error, Gateway.count_request, ret.
    cbn [fst]. eexists. split; [reflexivity|]. done.
Qed.

(** ** Two callers on one key *)

Section InterleavingRuns.
Import Interleaving.

(** A call that runs its commands back to back is [check_rate_limit]. *)
Lemma steps_alone (key : string) (limit window : Z) (w : world) :
  (let '(c, w') := steps 4 (start key limit window w) w in (outcome_of c, w')) =
  (let '(o, w') := RateLimiter.check_rate_limit key limit window w in (Some o, w')).
Proof.
  unfold RateLimiter.check_rate_limit, start, bind, utcnow_timestamp, ret.
  cbn [steps]. unfold step at 1. cbn [c_pc c_key c_time c_window c_limit].
  destruct (Redis.zremrangebyscore _ _ _ w) as [[n|e] w1]; [|reflexivity].
  unfold step at 1. cbn [c_pc c_key c_time c_window c_limit goto].
  destruct (Redis.zcard _ w1) as [[n'|e] w2]; [|reflexivity].
  destruct (limit <=? n'); [reflexivity|].
  unfold step at 1. cbn [c_pc c_key c_time c_window c_limit goto].
  destruct (Redis.zadd _ _ _ w2) as [[n''|e] w3]; [|reflexivity].
  unfold step at 1. cbn [c_pc c_key c_time c_window c_limit goto].
  destruct (Redis.expire _ _ w3) as [[b|e] w4]; reflexivity.
Qed.

Lemma run_app (s1 s2 : list bool) (a b : call) (w : world) :
  run (s1 ++ s2) a b w =
    let '(a', b', w') := run s1 a b w in run s2 a' b' w'.
Proof.
  revert a b w. induction s1 as [|[] s1 IH]; intros a b w; simpl; [done|..].
  - destruct (step b w) as [b' w']. apply IH.
  - destruct (step a w) as [a' w']. apply IH.
Qed.

Lemma run_first (n : nat) (a b : call) (w : world) :
  run (replicate n false) a b w = (fst (steps n a w), b, snd (steps n a w)).
Proof.
  revert a w. induction n as [|n IH]; intros a w; simpl; [done|].
  destruct (step a w) as [a' w']. apply IH.
Qed.

Lemma run_second (n : nat) (a b : call) (w : world) :
  run (replicate n true) a b w = (a, fst (steps n b w), snd (steps n b w)).
Proof.
  revert b w. induction n as [|n IH]; intros b w; simpl; [done|].
  destruct (step b w) as [b' w']. apply IH.
Qed.

Lemma command_clock {A} (f : Z -> redis_db -> outcome A * redis_db) (w : world) :
  clock (snd (Redis.command f w)) = clock w.
Proof.
  unfold Redis.command. destruct (link w) as [|[] rest]; try done;
    by destruct (f (clock w) (db w)).
Qed.

Lemma step_clock (c : call) (w : world) : clock (snd (step c w)) = clock w.
Proof.
  unfold step.
  destruct (c_pc c); try done.
  - pose proof (command_clock (A:=Z)) as Hc.
    unfold Redis.zremrangebyscore.
    match goal with |- context [Redis.command ?f w] =>
      specialize (Hc f w); destruct (Redis.command f w) as [[?|?] ?] end; done.
  - pose proof (command_clock (A:=Z)) as Hc.
    unfold Redis.zcard.
    match goal with |- context [Redis.command ?f w] =>
      specialize (Hc f w); destruct (Redis.command f w) as [[?|?] ?] end; done.
  - pose proof (command_clock (A:=Z)) as Hc.
    unfold Redis.zadd.
    match goal with |- context [Redis.command ?f w] =>
      specialize (Hc f w); destruct (Redis.command f w) as [[?|?] ?] end; done.
  - pose proof (command_clock (A:=bool)) as Hc.
    unfold Redis.expire.
    match goal with |- context [Redis.command ?f w] =>
      specialize (Hc f w); destruct (Redis.command f w) as [[?|?] ?] end; done.
Qed.

Lemma steps_clock (n : nat) (c : call) (w : world) : clock (snd (steps n c w)) = clock w.
Proof.
  revert c w. induction n as [|n IH]; intros c w; simpl; [done|].
  pose proof (step_clock c w) as Hs. destruct (step c w) as [c' w']. simpl in Hs.
  by rewrite IH.
Qed.

End InterleavingRuns.

(** C10 (amended). The evict, count and insert steps of one call are one
    operation only when no command of another caller falls between them:
    two calls whose commands the store receives one call after the other
    behave as two successive calls of [check_rate_limit]. Nothing in the
    code makes the store run them that way. *)
Theorem serial_calls_are_atomic (ka kb : string) (la lb wa wb : Z) (w : world) :
  let a := Interleaving.start ka la wa w in
  let b := Interleaving.start kb lb wb w in
  let r := Interleaving.run (replicate 4 false ++ replicate 4 true) a b w in
  let first := RateLimiter.check_rate_limit ka la wa w in
  let second := RateLimiter.check_rate_limit kb lb wb (snd first) in
  Interleaving.outcome_of (fst (fst r)) = Some (fst first) /\
  Interleaving.outcome_of (snd (fst r)) = Some (fst second) /\
  snd r = snd second.
Proof.
  cbn zeta. rewrite run_app, run_first, run_second.
  pose proof (steps_alone ka la wa w) as Ha.
  pose proof (steps_clock 4 (Interleaving.start ka la wa w) w) as Hclock.
  destruct (Interleaving.steps 4 (Interleaving.start ka la wa w) w) as [a' w1'].
  destruct (RateLimiter.check_rate_limit ka la wa w) as [ra w1].
  injection Ha as Ha ->. cbn [fst snd] in *.
  pose proof (steps_alone kb lb wb w1) as Hb.
  unfold Interleaving.start in *. rewrite Hclock in Hb.
  destruct (Interleaving.steps 4 _ w1) as [b' w2'].
  destruct (RateLimiter.check_rate_limit kb lb wb w1) as [rb w2].
  injection Hb as Hb ->. done.
Qed.

(** * Scenarios in the default environment *)

Section Scenarios.
Local Existing Instance default_env.

Example viewer_may_view_not_create :
  match fst (get_current_user
               (token_of (TokenManager.create_access_token (claims_of "user-1" "viewer") None)
                         (boot 1000))
               (boot 1000)) with
  | Ret u => has_permission u "tournament:view" = true /\
             has_permission u "tournament:create" = false
  | Raise _ => False
  end.
Proof. vm_compute. done. Qed.

(** A signed token with a claim named like a parameter of [AuthUser]
    passes every check, and the construction of the user then fails: this
    is no [HTTPException] either. *)
Example get_optional_user_keyword_clash :
  let t := token_of (TokenManager.create_access_token
                       (<["permissions" := PStr "all"]> (claims_of "user-1" "viewer")) None)
                    (boot 1000) in
  fst (get_optional_user (Some t) (boot 1000)) = Raise TypeError.
Proof. vm_compute. done. Qed.

(** C2 (defect). The claim holds that after [blacklist_token] every
    resolution of the token is refused until its expiry. Token A (expiry
    1000) is revoked at second 100 and refused at second 300. Token B of
    another user (expiry 500), revoked at second 200, is recorded under
    the same key, the first 16 characters of the token, and overwrites
    the record with its shorter lifetime: at second 600 token A resolves
    again, 400 seconds before it expires. *)
Theorem revocation_cut_short_by_another :
  let A := token_of (TokenManager.create_access_token (claims_of "user-1" "viewer")
                       (Some 900)) (boot 100) in
  let B := token_of (TokenManager.create_access_token (claims_of "user-2" "player")
                       (Some 400)) (boot 100) in
  let w1 := snd (TokenManager.blacklist_token A None (boot 100)) in
  let w2 := snd (TokenManager.blacklist_token B None (set_clock 200 w1)) in
  expiry A = Some 1000 /\ expiry B = Some 500 /\
  fst (get_current_user A (set_clock 300 w2)) =
    Raise (HTTPException HTTP_401_UNAUTHORIZED "Token has been revoked") /\
  match fst (get_current_user A (set_clock 600 w2)) with
  | Ret u => user_id u = PStr "user-1"
  | Raise _ => False
  end.
Proof. vm_compute. done. Qed.

(** C5 (defect). The claim holds that no hop-by-hop header is in the
    relayed response. The [connection] header of the request does not
    reach the service, but the [transfer-encoding] header of the answer
    is relayed to the caller: only the way down is filtered. *)
Theorem hop_by_hop_header_relayed_back :
  match fst (Gateway.proxy_to_service chunked_service get_tournaments
               "tournament" "api/v1/tournaments" None (boot 1000)) with
  | Ret resp =>
      content resp = JBool false /\
      headers resp !! "transfer-encoding" = Some "chunked"
  | Raise _ => False
  end.
Proof. vm_compute. done. Qed.


(** C8, the claim as stated fails: with the store unreachable the request
    is not let through to the application, which would have answered
    200; the connection error is raised and nothing is logged. *)
Lemma store_down_request_not_let_through :
  let r := Gateway.request_middleware "req-1" get_tournaments
             (fun _ => ret (JSONResponse 200 JNull ∅))
             (set_link [false] (boot 1000)) in
  fst r = Raise ConnectionError /\ log (snd r) = [].
Proof. vm_compute. done. Qed.

(** C9 (defect). The claim holds that every terminal response carries the
    correlation id and the API version as headers. The middleware sets the
    two headers on what the application returns, so a request to a service
    that cannot be reached gets them on its 503; the same request to a
    service that answers with a page that is no JSON ends in the 500
    fallback of the middleware, which carries neither. *)
Theorem fallback_response_has_no_headers :
  let ask service :=
    fst (Gateway.request_middleware "req-1" get_tournaments
           (Gateway.route (Gateway.tournament_proxy service None "")) (boot 1000)) in
  match ask garbled, ask unreachable with
  | Ret fallback, Ret relayed =>
      status_code fallback = 500 /\
      headers fallback !! "X-Request-ID" = None /\
      headers fallback !! "X-API-Version" = None /\
      status_code relayed = 503 /\
      headers relayed !! "X-Request-ID" = Some "req-1" /\
      headers relayed !! "X-API-Version" = Some Gateway.VERSION
  | _, _ => False
  end.
Proof. vm_compute. done. Qed.

(** C3 (defect). The claim holds that a token which has passed the earlier
    checks and carries a [session_id] has its session binding validated.
    The access token of user-1 carries the session s-1, and the store holds
    that session, bound to user-1 and alive; signature, expiry, kind and
    payload pass. [get_session] reads the session and then writes it back
    with [timedelta(hours=24).total_seconds()], a float, as its time to
    live, which the store refuses: the token does not resolve, and the
    error is no 401 either. *)
Theorem bound_session_token_store_error :
  let w := session_store "user-1" in
  revoked w session_token = false /\
  verifies (clock w) session_token = true /\
  py_get (token_claims session_token) "type" = PStr "access" /\
  py_get (token_claims session_token) "sub" = PStr "user-1" /\
  py_get (token_claims session_token) "session_id" = PStr "s-1" /\
  Redis.fetch (clock w) (db w) "session:s-1"
    = Some (Entry (RJson (session_record "user-1")) (Some 87300)) /\
  py_get (session_record "user-1") "user_id" = PStr "user-1" /\
  get_current_user session_token w =
    (Raise (ResponseError "value is not an integer or out of range"), w).
Proof. vm_compute. done. Qed.

(** The construction of the user is a second place where a token that
    passes every check does not resolve: a claim named like a parameter of
    [AuthUser] makes the call a [TypeError]. *)
Example get_current_user_keyword_clash :
  let t := token_of (TokenManager.create_access_token
                       (<["user_id" := PInt 7]> (claims_of "user-1" "viewer")) None)
                    (boot 1000) in
  fst (get_current_user t (boot 1000)) = Raise TypeError.
Proof. vm_compute. done. Qed.

(** C6 (defect). The claim holds that a token whose session is bound to
    another user is refused with 401. The access token of user-1 carries
    the session s-1, which the store holds for user-2. The comparison of
    the two is not reached: the touch of the session in [get_session]
    passes a float as time to live, the store refuses it, and that error
    leaves [get_current_user] instead of the 401. Without a session under
    the id the token is refused with 401, as the claim says. *)
Theorem mismatched_session_store_error :
  let w := session_store "user-2" in
  revoked w session_token = false /\
  verifies (clock w) session_token = true /\
  py_get (token_claims session_token) "sub" = PStr "user-1" /\
  py_get (token_claims session_token) "session_id" = PStr "s-1" /\
  Redis.fetch (clock w) (db w) "session:s-1"
    = Some (Entry (RJson (session_record "user-2")) (Some 87300)) /\
  py_get (session_record "user-2") "user_id" = PStr "user-2" /\
  fst (get_current_user session_token w) =
    Raise (ResponseError "value is not an integer or out of range") /\
  fst (get_current_user session_token (boot 1000)) =
    Raise (HTTPException HTTP_401_UNAUTHORIZED "Invalid session").
Proof. vm_compute. done. Qed.

(** C10, the claim as stated fails: with one slot left, two calls whose
    commands interleave both count before either inserts, and both are
    accepted; run one after the other, the second is rejected. The
    second caller has seen the entries between the count and the insert
    of the first. *)
Lemma interleaved_calls_both_accepted :
  let w := boot 1000 in
  let a := Interleaving.start "ip:ua" 1 60 w in
  let b := Interleaving.start "ip:ua" 1 60 w in
  let r := Interleaving.run [false; false; true; true; false; false; true; true] a b w in
  let first := RateLimiter.check_rate_limit "ip:ua" 1 60 w in
  let second := RateLimiter.check_rate_limit "ip:ua" 1 60 (snd first) in
  Interleaving.outcome_of (fst (fst r)) = Some (Ret true) /\
  Interleaving.outcome_of (snd (fst r)) = Some (Ret true) /\
  fst first = Ret true /\ fst second = Ret false.
Proof. vm_compute. done. Qed.

(** ** The theorems at concrete inputs *)



Lemma rate_limit_store_down_propagates_witness :
  Gateway.request_middleware "req-1" get_tournaments
    (fun _ => ret (JSONResponse 200 JNull ∅)) (set_link [false; true] (boot 1000))
  = (Raise ConnectionError, set_link [true] (set_link [false; true] (boot 1000))).
Proof.
  apply (rate_limit_store_down_propagates "req-1" get_tournaments
           (fun _ => ret (JSONResponse 200 JNull ∅))
           (set_link [false; true] (boot 1000)) [true]).
  reflexivity.
Defined.

End Scenarios.

(** * Further properties *)

(** ** What a Redis command leaves alone *)

Lemma command_frame {A} (f : Z -> redis_db -> outcome A * redis_db) (w : world) (k : string) :
  (forall now d, snd (f now d) !! k = d !! k) ->
  db (snd (Redis.command f w)) !! k = db w !! k.
Proof.
  intros Hf. unfold Redis.command.
  destruct (link w) as [|[] rest]; try done;
    specialize (Hf (clock w) (db w)); by destruct (f (clock w) (db w)).
Qed.

Lemma command_quiet {A} (f : Z -> redis_db -> outcome A * redis_db) (w : world) :
  clock (snd (Redis.command f w)) = clock w /\
  log (snd (Redis.command f w)) = log w /\
  request_count (snd (Redis.command f w)) = request_count w /\
  service_request_count (snd (Redis.command f w)) = service_request_count w.
Proof.
  unfold Redis.command.
  destruct (link w) as [|[] rest]; try done; by destruct (f (clock w) (db w)).
Qed.

Lemma zremrangebyscore_frame (k k' : string) (lo hi : Z) (w : world) :
  k' ≠ k -> db (snd (Redis.zremrangebyscore k lo hi w)) !! k' = db w !! k'.
Proof.
  intros Hne. apply command_frame. intros now d.
  destruct (Redis.fetch now d k) as [[[s|j|z] ex]|]; simpl; try done.
  case_decide; by rewrite ?lookup_delete_ne, ?lookup_insert_ne.
Qed.

Lemma zcard_frame (k k' : string) (w : world) :
  db (snd (Redis.zcard k w)) !! k' = db w !! k'.
Proof.
  apply command_frame. intros now d.
  by destruct (Redis.fetch now d k) as [[[s|j|z] ex]|].
Qed.

Lemma zadd_frame (k k' member : string) (score : Z) (w : world) :
  k' ≠ k -> db (snd (Redis.zadd k member score w)) !! k' = db w !! k'.
Proof.
  intros Hne. apply command_frame. intros now d.
  destruct (Redis.fetch now d k) as [[[s|j|z] ex]|]; simpl; try done;
    by rewrite lookup_insert_ne.
Qed.

Lemma expire_frame (k k' : string) (seconds : Z) (w : world) :
  k' ≠ k -> db (snd (Redis.expire k seconds w)) !! k' = db w !! k'.
Proof.
  intros Hne. apply command_frame. intros now d.
  destruct (Redis.fetch now d k) as [e|]; simpl; [|done].
  destruct (seconds <=? 0); by rewrite ?lookup_delete_ne, ?lookup_insert_ne.
Qed.

(** ** The rate limiter *)

(** X1. [check_rate_limit] writes under its own key and nowhere else: every
    other key of the store (the windows of other clients, sessions,
    blacklist records) is as before, whatever the store does; and it
    neither logs nor counts. *)
Theorem check_rate_limit_touches_own_key_only (key : string) (limit window : Z)
    (w : world) (k : string) :
  k ≠ "rate_limit:" +:+ key ->
  let r := RateLimiter.check_rate_limit key limit window w in
  db (snd r) !! k = db w !! k /\
  log (snd r) = log w /\ request_count (snd r) = request_count w.
Proof.
  intros Hne. cbn zeta. unfold RateLimiter.check_rate_limit, bind, utcnow_timestamp, ret.
  pose proof (zremrangebyscore_frame ("rate_limit:" +:+ key) k 0 (clock w - window) w Hne) as H1.
  pose proof (command_quiet (A:=Z)) as Hq.
  unfold Redis.zremrangebyscore in *.
  match goal with |- context [Redis.command ?f w] =>
    destruct (Hq f w) as (_ & Hl1 & Hc1 & _); destruct (Redis.command f w) as [[n|e] w1] end;
    cbn [fst snd] in *; [|done].
  pose proof (zcard_frame ("rate_limit:" +:+ key) k w1) as H2.
  unfold Redis.zcard in *.
  match goal with |- context [Redis.command ?f w1] =>
    destruct (Hq f w1) as (_ & Hl2 & Hc2 & _); destruct (Redis.command f w1) as [[n'|e] w2] end;
    cbn [fst snd] in *; [|by rewrite H2, H1, Hl2, Hl1, Hc2, Hc1].
  destruct (limit <=? n'); cbn [fst snd]; [by rewrite H2, H1, Hl2, Hl1, Hc2, Hc1|].
  pose proof (zadd_frame ("rate_limit:" +:+ key) k (pretty (clock w)) (clock w) w2 Hne) as H3.
  unfold Redis.zadd in *.
  match goal with |- context [Redis.command ?f w2] =>
    destruct (Hq f w2) as (_ & Hl3 & Hc3 & _); destruct (Redis.command f w2) as [[n''|e] w3] end;
    cbn [fst snd] in *; [|by rewrite H3, H2, H1, Hl3, Hl2, Hl1, Hc3, Hc2, Hc1].
  pose proof (expire_frame ("rate_limit:" +:+ key) k window w3 Hne) as H4.
  pose proof (command_quiet (A:=bool)) as Hq'.
  unfold Redis.expire in *.
  match goal with |- context [Redis.command ?f w3] =>
    destruct (Hq' f w3) as (_ & Hl4 & Hc4 & _); destruct (Redis.command f w3) as [[b|e] w4] end;
    cbn [fst snd] in *;
    by rewrite H4, H3, H2, H1, Hl4, Hl3, Hl2, Hl1, Hc4, Hc3, Hc2, Hc1.
Qed.

Lemma get_rate_limit_info_run (w : world) (key : string) (limit window : Z) :
  link w = [] -> well_typed w key ->
  RateLimiter.get_rate_limit_info key limit window w =
    (Ret (RateLimiter.RateInfo limit
            (Z.max 0 (limit - Z.of_nat (size (in_window (clock w) window (entries w key)))))
            (clock w + window) window),
     set_db (window_db w key 0 window) w).
Proof.
  intros Hl Hty. unfold RateLimiter.get_rate_limit_info, window_db, entries.
  unfold well_typed in Hty.
  set (k := "rate_limit:" +:+ key) in *. set (now := clock w) in *.
  unfold bind at 1. unfold utcnow_timestamp. fold now.
  unfold Redis.zremrangebyscore, Redis.zcard.
  redis_step. fold now.
  destruct (Redis.fetch now (db w) k) as [[v ex]|] eqn:Hf.
  - destruct (Hty _ eq_refl) as [z Hz]. simpl in Hz. subst v.
    fold (in_window now window z). set (z' := in_window now window z).
    apply fetch_Some_live in Hf as [Hk Hlive].
    assert (Hlive' : forall s, Redis.live now (Entry s ex) = true) by done.
    assert ((0 <=? Z.of_nat (size z')) = true) as -> by lia.
    cbn [fst snd]. redis_step. fold now.
    destruct (decide (z' = ∅)) as [He|Hne].
    + rewrite fetch_delete_eq. cbn [fst snd]. rewrite He, map_size_empty.
      unfold ret. by rewrite !set_db_set_db.
    + rewrite fetch_insert_eq by done. cbn [fst snd].
      unfold ret. by rewrite !set_db_set_db.
  - cbn [fst snd]. unfold in_window. rewrite map_filter_empty, map_size_empty.
    change (0 <=? Z.of_nat 0) with true. cbn iota.
    redis_step. fold now. rewrite Hf. cbn [fst snd].
    unfold ret. by rewrite !set_db_set_db.
Qed.

Lemma in_window_idem (now window : Z) (z : gmap string Z) :
  in_window now window (in_window now window z) = in_window now window z.
Proof.
  unfold in_window. apply map_filter_id. intros m s Hms.
  by apply map_lookup_filter_Some in Hms as [_ ?].
Qed.

Lemma entries_window_db_evicted (w : world) (key : string) (window : Z) :
  well_typed w key ->
  entries (set_db (window_db w key 0 window) w) key
    = in_window (clock w) window (entries w key).
Proof.
  intros Hty. unfold window_db, entries at 1. cbn [clock db set_db].
  assert ((0 <=? Z.of_nat (size (in_window (clock w) window (entries w key)))) = true)
    as -> by lia.
  unfold entries.
  destruct (Redis.fetch (clock w) (db w) ("rate_limit:" +:+ key)) as [[v ex]|] eqn:Hf.
  - destruct (Hty _ Hf) as [z Hz]. simpl in Hz. subst v.
    apply fetch_Some_live in Hf as [Hk Hlive].
    destruct (decide (in_window (clock w) window z = ∅)) as [He|Hne].
    + by rewrite fetch_delete_eq, He.
    + by rewrite fetch_insert_eq.
  - rewrite Hf. unfold in_window. by rewrite map_filter_empty.
Qed.

(** X2. [get_rate_limit_info] is a read-only report: with the store
    answering it evicts what is older than the window and records nothing;
    [remaining] is the limit less the entries in the window, never
    negative and never above a non-negative limit, and [reset_time] is a
    full window from now. *)
Theorem get_rate_limit_info_reports (w : world) (key : string) (limit window : Z) :
  link w = [] -> well_typed w key ->
  let z := in_window (clock w) window (entries w key) in
  let r := RateLimiter.get_rate_limit_info key limit window w in
  exists info,
    fst r = Ret info /\
    RateLimiter.ri_limit info = limit /\
    RateLimiter.ri_window info = window /\
    RateLimiter.ri_reset_time info = clock w + window /\
    RateLimiter.ri_remaining info = Z.max 0 (limit - Z.of_nat (size z)) /\
    0 <= RateLimiter.ri_remaining info <= Z.max 0 limit /\
    entries (snd r) key = z.
Proof.
  intros Hl Hty. cbn zeta. rewrite get_rate_limit_info_run by done.
  eexists. split; [reflexivity|]. cbn [fst snd RateLimiter.ri_limit RateLimiter.ri_window
    RateLimiter.ri_reset_time RateLimiter.ri_remaining].
  repeat split; try lia. by apply entries_window_db_evicted.
Qed.

Lemma well_typed_window_db (w : world) (key : string) (limit window : Z) :
  well_typed w key -> well_typed (set_db (window_db w key limit window) w) key.
Proof.
  intros Hty e. unfold window_db. cbn [clock db set_db].
  set (k := "rate_limit:" +:+ key). set (z' := in_window (clock w) window (entries w key)).
  destruct (limit <=? Z.of_nat (size z')).
  - destruct (Redis.fetch (clock w) (db w) k) as [[v ex]|] eqn:Hf; [|by rewrite Hf].
    case_decide.
    + by rewrite fetch_delete_eq.
    + unfold Redis.fetch. rewrite lookup_insert_eq.
      destruct (Redis.live _ _); [|done]. intros [= <-]. by eexists.
  - destruct (window <=? 0).
    + by rewrite fetch_delete_eq.
    + unfold Redis.fetch. rewrite lookup_insert_eq.
      destruct (Redis.live _ _); [|done]. intros [= <-]. by eexists.
Qed.

Lemma check_rate_limit_keeps_shape (w : world) (key : string) (limit window : Z) :
  link w = [] -> well_typed w key ->
  let w' := snd (RateLimiter.check_rate_limit key limit window w) in
  link w' = [] /\ clock w' = clock w /\ well_typed w' key.
Proof.
  intros Hl Hty. cbn zeta. rewrite check_rate_limit_run by done. cbn [snd].
  repeat split; [done|]. by apply well_typed_window_db.
Qed.

Lemma check_rate_limit_touches_frame (w : world) (key : string) (limit window : Z) :
  log (snd (RateLimiter.check_rate_limit key limit window w)) = log w /\
  request_count (snd (RateLimiter.check_rate_limit key limit window w)) = request_count w.
Proof.
  unfold RateLimiter.check_rate_limit, bind, utcnow_timestamp, ret.
  pose proof (command_quiet (A:=Z)) as Hq. pose proof (command_quiet (A:=bool)) as Hq'.
  unfold Redis.zremrangebyscore, Redis.zcard, Redis.zadd, Redis.expire.
  match goal with |- context [Redis.command ?f w] =>
    destruct (Hq f w) as (_ & Hl1 & Hc1 & _); destruct (Redis.command f w) as [[n|e] w1] end;
    cbn [fst snd] in *; [|done].
  match goal with |- context [Redis.command ?f w1] =>
    destruct (Hq f w1) as (_ & Hl2 & Hc2 & _); destruct (Redis.command f w1) as [[n'|e] w2] end;
    cbn [fst snd] in *; [|by rewrite Hl2, Hl1, Hc2, Hc1].
  destruct (limit <=? n'); cbn [fst snd]; [by rewrite Hl2, Hl1, Hc2, Hc1|].
  match goal with |- context [Redis.command ?f w2] =>
    destruct (Hq f w2) as (_ & Hl3 & Hc3 & _); destruct (Redis.command f w2) as [[n''|e] w3] end;
    cbn [fst snd] in *; [|by rewrite Hl3, Hl2, Hl1, Hc3, Hc2, Hc1].
  match goal with |- context [Redis.command ?f w3] =>
    destruct (Hq' f w3) as (_ & Hl4 & Hc4 & _); destruct (Redis.command f w3) as [[b|e] w4] end;
    cbn [fst snd] in *;
    by rewrite Hl4, Hl3, Hl2, Hl1, Hc4, Hc3, Hc2, Hc1.
Qed.

(** X3. A throttled request: when the window of the client already holds
    100 entries and the store answers, the middleware answers 429 without
    running the application, with [X-Rate-Limit-Remaining] 0 and
    [X-Rate-Limit-Reset] a full window from now, counts the request once
    under 429 and logs nothing. *)
Theorem throttled_request_response (uuid : string) (request : Request)
    (call_next : Request -> M Response) (w : world) :
  let key := rate_limit_key request in
  link w = [] -> well_typed w key ->
  100 <= Z.of_nat (size (in_window (clock w) 60 (entries w key))) ->
  let run := Gateway.request_middleware uuid request call_next w in
  exists resp,
    fst run = Ret resp /\
    status_code resp = HTTP_429_TOO_MANY_REQUESTS /\
    headers resp !! "X-Rate-Limit-Remaining" = Some "0" /\
    headers resp !! "X-Rate-Limit-Reset" = Some (pretty (clock w + 60)) /\
    json_field "request_id" (content resp) = Some (JStr uuid) /\
    request_count (snd run) =
      (request_count w ++ [(method request, url_path request, "429")])%list /\
    log (snd run) = log w.
Proof.
  intros key Hl Hty Hfull. cbn zeta.
  destruct (check_rate_limit_reject w key 100 60 Hl Hty Hfull) as [Hrej Hent].
  destruct (check_rate_limit_keeps_shape w key 100 60 Hl Hty) as (Hl1 & Hc1 & Hty1).
  destruct (check_rate_limit_touches_frame w key 100 60) as (Hlog1 & Hcount1).
  set (w1 := snd (RateLimiter.check_rate_limit key 100 60 w)) in *.
  assert (Gateway.request_middleware uuid request call_next w =
    (Ret (JSONResponse HTTP_429_TOO_MANY_REQUESTS
            (JDict [("success", JBool false);
                    ("error", JDict [("code", JStr "RATE_LIMIT_EXCEEDED");
                                     ("message", JStr "Rate limit exceeded");
                                     ("details", Gateway.rate_info_json
                                        (RateLimiter.RateInfo 100 0 (clock w + 60) 60))]);
                    ("request_id", JStr uuid)])
            (<["X-Rate-Limit-Reset" := pretty (clock w + 60)]>
               (<["X-Rate-Limit-Remaining" := pretty 0]> ∅))),
     add_count (method request) (url_path request) "429"
       (set_db (window_db w1 key 0 60) w1))) as ->.
  { unfold Gateway.request_middleware.
    change (client_host (set_request_id uuid request) +:+ ":" +:+
            Gateway.header_get "user-agent" "unknown" (set_request_id uuid request))
      with key.
    unfold bind at 1.
    destruct (RateLimiter.check_rate_limit key 100 60 w) as [r1 w1'] eqn:Hrun.
    cbn [fst snd] in *. subst r1 w1. cbn [negb].
    unfold bind at 1. rewrite get_rate_limit_info_run by done. rewrite Hent, Hc1.
    rewrite in_window_idem.
    assert (Z.max 0 (100 - Z.of_nat (size (in_window (clock w) 60 (entries w key)))) = 0)
      as -> by lia.
    reflexivity. }
  eexists. split; [reflexivity|].
  cbn [fst snd status_code headers content request_count log add_count set_db].
  repeat split; try done.
  by rewrite Hcount1.
Qed.

Lemma well_typed_sorted_set (w : world) (key : string) (z : gmap string Z) (ex : option Z) :
  db w !! ("rate_limit:" +:+ key) = Some (Entry (RZSet z) ex) -> well_typed w key.
Proof.
  intros Hk e [Hk' _]%fetch_Some_live. rewrite Hk in Hk'. injection Hk' as <-. by eexists.
Qed.

Lemma well_typed_later (w : world) (key : string) (t : Z) :
  well_typed w key -> clock w <= t -> well_typed (set_clock t w) key.
Proof.
  intros Hty Ht e. cbn [clock db set_clock]. intros [Hk Hlive]%fetch_Some_live.
  apply Hty. unfold Redis.fetch. rewrite Hk.
  assert (Redis.live (clock w) e = true) as ->; [|done].
  unfold Redis.live in *. destruct (expires_at e); [lia|done].
Qed.

(** X4. With a limit above the window length in seconds, as the 100
    requests per 60 seconds of the gateway, the limiter never rejects: from
    a store that holds only what earlier calls recorded, however many calls
    follow and however close in time, each one is accepted. *)
Theorem rate_limit_calls_never_reject (key : string) (limit window : Z)
    (gaps : list nat) (w : world) :
  link w = [] -> well_typed w key -> 0 <= clock w ->
  stamped (clock w) (entries w key) ->
  0 < window < limit ->
  Forall (fun r => r = Ret true) (fst (rate_limit_calls key limit window gaps w)).
Proof.
  intros Hl Hty Hepoch Hst Hwin. revert w Hl Hty Hepoch Hst.
  induction gaps as [|gap gaps IH]; intros w Hl Hty Hepoch Hst; simpl; [constructor|].
  set (w0 := set_clock (clock w + Z.of_nat gap) w).
  assert (link w0 = []) as Hl0 by done.
  assert (well_typed w0 key) as Hty0 by (apply well_typed_later; [done|lia]).
  assert (0 <= clock w0) as Hepoch0 by (simpl; lia).
  assert (stamped (clock w0) (entries w0 key)) as Hst0
    by (apply stamped_later; [done|lia]).
  destruct (check_rate_limit_never_rejects w0 key limit window Hl0 Hty0 Hwin Hepoch0 Hst0)
    as [Hacc Hst1].
  destruct (check_rate_limit_keeps_shape w0 key limit window Hl0 Hty0) as (Hl1 & Hc1 & Hty1).
  constructor; [done|].
  apply IH; try done; by rewrite Hc1.
Qed.

(** ** Tokens from issue to resolution *)

Section TokenLife.

Context `{Env}.

(** The lifetime that [create_access_token] gives, in seconds; [iat] and
    [exp] are seconds since the epoch. *)
Lemma create_access_token_run (data : pydict) (delta : option Z) (w0 : world) :
  TokenManager.create_access_token data delta w0 =
    (Ret (jwt.encode
            (<["type" := PStr "access"]>
               (<["iat" := PInt (clock w0 + UTC_OFFSET)]>
                  (<["exp" := PInt (clock w0 + UTC_OFFSET +
                       match delta with
                       | Some d => if d =? 0 then JWT_ACCESS_TOKEN_EXPIRE_MINUTES * 60 else d
                       | None => JWT_ACCESS_TOKEN_EXPIRE_MINUTES * 60
                       end)]> data)))
            JWT_SECRET), w0).
Proof.
  unfold TokenManager.create_access_token, bind, jwt.utc_epoch, ret.
  destruct delta as [d|]; [|done]. by destruct (d =? 0).
Qed.

Lemma encode_expiry (c : pydict) (e : Z) :
  c !! "exp" = Some (PInt e) -> expiry (jwt.encode c JWT_SECRET) = Some e.
Proof. intros Hc. unfold expiry. simpl. by rewrite Hc. Qed.

Lemma verify_token_expired (t : jwt.token) (e : Z) (w : world) :
  well_signed t = true -> expiry t = Some e ->
  jwt.expired e (clock w + UTC_OFFSET) = true ->
  TokenManager.verify_token t w =
    (Raise (HTTPException HTTP_401_UNAUTHORIZED "Token has expired"), w).
Proof.
  intros Hs He Hx. unfold TokenManager.verify_token, try_except.
  rewrite (decode_verified t e) by done. by rewrite Hx.
Qed.

(** X5. An access token verifies to the claims it was made from, with
    [exp], [iat] and [type] set, at every second before its expiry, and is
    refused as expired with 401 at every second after it. A zero
    [expires_delta] gives the default lifetime. The token is stamped and
    checked in seconds since the epoch, so this holds in every time zone:
    it has expired when [lifetime] seconds have passed on the clock of the
    host. *)
Theorem access_token_verifies_until_expiry (data : pydict) (delta : option Z)
    (w0 w : world) (tok : jwt.token) :
  fst (TokenManager.create_access_token data delta w0) = Ret tok ->
  let lifetime :=
    match delta with
    | Some d => if d =? 0 then JWT_ACCESS_TOKEN_EXPIRE_MINUTES * 60 else d
    | None => JWT_ACCESS_TOKEN_EXPIRE_MINUTES * 60
    end in
  let iat := clock w0 + UTC_OFFSET in
  let e := iat + lifetime in
  (clock w < clock w0 + lifetime ->
   TokenManager.verify_token tok w =
     (Ret (<["type" := PStr "access"]>
             (<["iat" := PInt iat]> (<["exp" := PInt e]> data))), w)) /\
  (clock w0 + lifetime < clock w ->
   TokenManager.verify_token tok w =
     (Raise (HTTPException HTTP_401_UNAUTHORIZED "Token has expired"), w)).
Proof.
  rewrite create_access_token_run. cbn [fst]. intros [= <-]. cbn zeta.
  set (lifetime := match delta with Some _ => _ | None => _ end).
  set (e := clock w0 + UTC_OFFSET + lifetime).
  set (c := <["type" := PStr "access"]>
              (<["iat" := PInt (clock w0 + UTC_OFFSET)]> (<["exp" := PInt e]> data))).
  assert (c !! "exp" = Some (PInt e)) as Hexp
    by (unfold c; do 2 (rewrite lookup_insert_ne by done); apply lookup_insert_eq).
  split; intros Ht.
  - rewrite verify_token_ok; [done|].
    unfold verifies. rewrite encode_well_signed. cbn [token_claims jwt.encode jwt.claims andb].
    rewrite Hexp. unfold jwt.expired. destruct expired_at_exp; lia.
  - apply (verify_token_expired _ e); [apply encode_well_signed | by apply encode_expiry |].
    unfold jwt.expired. destruct expired_at_exp; lia.
Qed.

(** The blacklist check answers whatever happens, and writes nothing. *)
Lemma is_token_blacklisted_total (t : jwt.token) (w : world) :
  exists b w',
    TokenManager.is_token_blacklisted t w = (Ret b, w') /\
    db w' = db w /\ clock w' = clock w /\ log w' = log w.
Proof.
  unfold TokenManager.is_token_blacklisted, try_except, bind.
  rewrite decode_unverified.
  destruct (well_signed t); [|by eexists _, _].
  unfold Redis.exists_, Redis.command.
  destruct (link w) as [|[] rest]; by eexists _, _.
Qed.

(** A signed token that does not say it is an access token is refused. *)
Lemma encoded_refresh_refused (c : pydict) (e : Z) (w : world) :
  py_get c "type" = PStr "refresh" -> c !! "exp" = Some (PInt e) ->
  exists detail w',
    get_current_user (jwt.encode c JWT_SECRET) w
      = (Raise (HTTPException HTTP_401_UNAUTHORIZED detail), w') /\
    db w' = db w.
Proof.
  intros Hty Hexp.
  destruct (is_token_blacklisted_total (jwt.encode c JWT_SECRET) w)
    as (b & w1 & Hb & Hdb & _).
  unfold get_current_user. unfold bind at 1. rewrite Hb.
  destruct b; [by eexists _, _|].
  unfold bind at 1. unfold TokenManager.verify_token, try_except.
  cbn [jwt.decode jwt.encode jwt.signature jwt.header jwt.payload jwt.claims].
  rewrite String.eqb_refl. cbn [negb]. rewrite Hexp.
  unfold bind at 1. unfold jwt.utc_epoch.
  destruct (jwt.expired e _); [by eexists _, _|].
  unfold ret. rewrite Hty. by eexists _, _.
Qed.

Lemma create_refresh_token_run (data : pydict) (w0 : world) :
  TokenManager.create_refresh_token data w0 =
    (Ret (jwt.encode
            (<["type" := PStr "refresh"]>
               (<["iat" := PInt (clock w0 + UTC_OFFSET)]>
                  (<["exp" := PInt (clock w0 + UTC_OFFSET
                                    + JWT_REFRESH_TOKEN_EXPIRE_DAYS * 86400)]> data)))
            JWT_SECRET), w0).
Proof. done. Qed.

(** X6. A refresh token is never accepted where an access token is
    required: whatever the store holds and whether it answers or not,
    [get_current_user] refuses it with 401 and does not touch a session. *)
Theorem refresh_token_never_resolves (data : pydict) (w0 w : world) (tok : jwt.token) :
  fst (TokenManager.create_refresh_token data w0) = Ret tok ->
  exists detail w',
    get_current_user tok w = (Raise (HTTPException HTTP_401_UNAUTHORIZED detail), w') /\
    db w' = db w.
Proof.
  rewrite create_refresh_token_run. cbn [fst]. intros [= <-].
  eapply encoded_refresh_refused.
  - unfold py_get. by rewrite lookup_insert_eq.
  - do 2 (rewrite lookup_insert_ne by done). apply lookup_insert_eq.
Qed.

Lemma verify_token_returns (t : jwt.token) (w w' : world) (p : pydict) :
  TokenManager.verify_token t w = (Ret p, w') ->
  p = token_claims t /\ w' = w /\ verifies (clock w) t = true.
Proof.
  intros Hv. destruct (verifies (clock w) t) eqn:Hok.
  - rewrite verify_token_ok in Hv by done. by injection Hv as <- <-.
  - destruct (verify_token_fail t w Hok) as [detail Hd]. by rewrite Hd in Hv.
Qed.

Lemma filter_consumed_issued (data : pydict) (x y z : pyval) :
  filter (fun kv : string * pyval => kv.1 ∉ consumed_claims)
         (<["type" := x]> (<["iat" := y]> (<["exp" := z]> data)))
  = filter (fun kv : string * pyval => kv.1 ∉ consumed_claims) data.
Proof.
  rewrite !map_filter_insert_not; [done|..];
    intros v Hnot; apply Hnot; by apply (bool_decide_unpack _).
Qed.

Lemma filter_consumed_lookup (c : pydict) (k : string) :
  filter (fun kv : string * pyval => kv.1 ∉ consumed_claims) c !! k
  = if bool_decide (k ∈ consumed_claims) then None else c !! k.
Proof.
  case_bool_decide as Hk.
  - apply map_lookup_filter_None. right. intros v _ Hnot. by apply Hnot.
  - destruct (c !! k) as [v|] eqn:Hc.
    + by apply map_lookup_filter_Some.
    + apply map_lookup_filter_None. by left.
Qed.

Lemma encoded_access_resolves (data : pydict) (iat e : Z) (w : world) :
  truthy (py_get data "sub") = true ->
  truthy (py_get data "email") = true ->
  truthy (py_get data "role") = true ->
  truthy (py_get data "session_id") = false ->
  data !! "self" = None /\ data !! "user_id" = None /\ data !! "permissions" = None ->
  link w = [] ->
  clock w + UTC_OFFSET < e ->
  let tok := jwt.encode (<["type" := PStr "access"]>
                           (<["iat" := PInt iat]> (<["exp" := PInt e]> data))) JWT_SECRET in
  revoked w tok = false ->
  get_current_user tok w =
    (Ret (mkAuthUser (py_get data "sub") (py_get data "email") (py_get data "role")
            (role_permissions (py_get data "role")) (py_get data "session_id")
            (filter (fun kv : string * pyval => kv.1 ∉ consumed_claims) data)), w).
Proof.
  intros Hsub Hem Hro Hsid (Hself & Huid & Hperm) Hl Ht tok Hrev. unfold tok in *.
  set (c := <["type" := PStr "access"]> (<["iat" := PInt iat]> (<["exp" := PInt e]> data))) in *.
  assert (forall k, k ≠ "type" -> k ≠ "iat" -> k ≠ "exp" -> py_get c k = py_get data k) as Hget.
  { intros k ???. unfold py_get, c. by rewrite !lookup_insert_ne. }
  assert (py_get c "type" = PStr "access") as Hty
    by (unfold py_get, c; by rewrite lookup_insert_eq).
  rewrite get_current_user_verified; try done.
  - cbn [token_claims jwt.encode jwt.claims]. fold c.
    rewrite Hty, !Hget by done. rewrite Hsub, Hem, Hro, Hsid. cbn [py_eq negb orb].
    rewrite String.eqb_refl. cbn [negb].
    unfold c. rewrite filter_consumed_issued.
    unfold AuthUser_init, AuthUser_parameters. cbn [existsb].
    rewrite !filter_consumed_lookup.
    rewrite Hself, Huid, Hperm.
    assert (bool_decide ("email" ∈ consumed_claims) = true) as -> by reflexivity.
    assert (bool_decide ("role" ∈ consumed_claims) = true) as -> by reflexivity.
    assert (bool_decide ("session_id" ∈ consumed_claims) = true) as -> by reflexivity.
    by repeat (destruct (bool_decide (_ ∈ consumed_claims))).
  - apply encode_well_signed.
  - unfold verifies. rewrite encode_well_signed. cbn [token_claims jwt.encode jwt.claims andb].
    fold c. assert (c !! "exp" = Some (PInt e)) as ->
      by (unfold c; do 2 (rewrite lookup_insert_ne by done); apply lookup_insert_eq).
    unfold jwt.expired. destruct expired_at_exp; lia.
Qed.

(** X7. From issue to resolution: an access token made from claims with a
    subject, an email and a role, without session id and without a claim
    named like a parameter of [AuthUser], resolves at every second before
    its expiry, as long as it is not revoked and the store answers, to the
    user with exactly these claims and the permissions of the role; nothing
    is written. *)
Theorem access_token_resolves (data : pydict) (delta : option Z)
    (w0 w : world) (tok : jwt.token) :
  fst (TokenManager.create_access_token data delta w0) = Ret tok ->
  truthy (py_get data "sub") = true ->
  truthy (py_get data "email") = true ->
  truthy (py_get data "role") = true ->
  truthy (py_get data "session_id") = false ->
  data !! "self" = None /\ data !! "user_id" = None /\ data !! "permissions" = None ->
  link w = [] -> revoked w tok = false ->
  clock w < clock w0 + match delta with
                       | Some d => if d =? 0 then JWT_ACCESS_TOKEN_EXPIRE_MINUTES * 60 else d
                       | None => JWT_ACCESS_TOKEN_EXPIRE_MINUTES * 60
                       end ->
  get_current_user tok w =
    (Ret (mkAuthUser (py_get data "sub") (py_get data "email") (py_get data "role")
            (role_permissions (py_get data "role")) (py_get data "session_id")
            (filter (fun kv : string * pyval => kv.1 ∉ consumed_claims) data)), w).
Proof.
  rewrite create_access_token_run. cbn [fst]. intros [= <-].
  intros Hsub Hem Hro Hsid Hfree Hl Hrev Ht.
  apply encoded_access_resolves; try done. lia.
Qed.

End TokenLife.

(** ** Revocation, its failures and its reach *)

Section RevocationReach.

Context `{Env}.

Lemma decode_returns (t : jwt.token) (v : bool) (w w' : world) (p : pydict) :
  jwt.decode t JWT_SECRET v w = (Ret p, w') -> p = token_claims t /\ w' = w.
Proof.
  destruct t as [j|s]; [|done]. simpl. unfold ret, raise.
  destruct (negb _); [done|]. destruct v; [|by intros [= <- <-]].
  destruct (jwt.claims j !! "exp") as [[| |e|]|]; try done; [|by intros [= <- <-]].
  unfold bind, jwt.utc_epoch. destruct (jwt.expired _ _); [done|]. by intros [= <- <-].
Qed.

Lemma decode_raises (t : jwt.token) (v : bool) (w w' : world) (e : exn) :
  jwt.decode t JWT_SECRET v w = (Raise e, w') -> w' = w.
Proof.
  destruct t as [j|s]; [|by intros [= _ <-]]. simpl. unfold ret, raise.
  destruct (negb _); [by intros [= _ <-]|]. destruct v; [|done].
  destruct (jwt.claims j !! "exp") as [[| |x|]|]; try done; try by intros [= _ <-].
  unfold bind, jwt.utc_epoch. destruct (jwt.expired _ _); [|done]. by intros [= _ <-].
Qed.

Lemma setex_frame (k k' : string) (seconds : pynumber) (v : rvalue) (w : world) :
  k' ≠ k -> db (snd (Redis.setex k seconds v w)) !! k' = db w !! k'.
Proof.
  intros Hne. apply command_frame. intros now d.
  destruct seconds as [n|x]; [|done].
  destruct (n <=? 0); simpl; [done|]. by rewrite lookup_insert_ne.
Qed.

(** Revoking a token never raises, and writes, if at all, under the key of
    the token only. *)
Lemma blacklist_token_frame (t : jwt.token) (expires_in : option Z) (w : world) (k : string) :
  fst (TokenManager.blacklist_token t expires_in w) = Ret tt /\
  clock (snd (TokenManager.blacklist_token t expires_in w)) = clock w /\
  (k ≠ TokenManager.blacklist_key (token_claims t) t ->
   db (snd (TokenManager.blacklist_token t expires_in w)) !! k = db w !! k).
Proof.
  destruct (TokenManager.blacklist_token t expires_in w) as [o w'] eqn:Hrun.
  cbn [fst snd]. unfold TokenManager.blacklist_token, try_except in Hrun.
  unfold bind at 1 in Hrun.
  destruct (jwt.decode t JWT_SECRET true w) as [[p|e0] w1] eqn:Hd.
  2:{ apply decode_raises in Hd as ->. by injection Hrun as <- <-. }
  apply decode_returns in Hd as [-> ->].
  set (key := TokenManager.blacklist_key (token_claims t) t) in *.
  assert (forall secs,
    match Redis.setex key secs (RStr "1") w with
    | (Ret a, w') => (Ret a, w')
    | (Raise e, w') =>
        if any_Exception e then logger_error "Failed to blacklist token" e w'
        else (Raise e, w')
    end = (o, w') ->
    o = Ret tt /\ clock w' = clock w /\ (k ≠ key -> db w' !! k = db w !! k)) as Hset.
  { intros secs. pose proof (setex_frame key k secs (RStr "1") w) as Hf.
    unfold Redis.setex in *.
    match goal with |- context [Redis.command ?f w] =>
      destruct (command_quiet f w) as (Hc & _);
      destruct (Redis.command f w) as [[[]|e] w2] end; cbn [fst snd] in *;
      intros [= <- <-]; auto. }
  destruct (truthy (py_get (token_claims t) "exp")); [|exact (Hset _ Hrun)].
  destruct (py_get (token_claims t) "exp") as [| |e|];
    try (by injection Hrun as <- <-).
  unfold bind, utcnow_timestamp in Hrun.
  destruct (0 <? e - clock w); [exact (Hset _ Hrun)|by injection Hrun as <- <-].
Qed.

(** X8. Revocation never blocks its caller, and can fail silently:
    [blacklist_token] returns whatever the token and the store. For a
    token that PyJWT accepts, two cases leave it usable. When [exp] lies
    ahead of the reading of the host and the store cannot be reached, the
    token is not recorded and the failure is logged. When the reading of
    the host is at or past [exp], as on a host west of Greenwich for a
    token with less than the offset of the zone to live, the time to live
    is not positive: the store is not asked and nothing is logged. *)
Theorem blacklist_token_never_blocks (t : jwt.token) (expires_in : option Z)
    (w : world) :
  fst (TokenManager.blacklist_token t expires_in w) = Ret tt /\
  (forall e rest,
     well_signed t = true -> expiry t = Some e ->
     clock w + UTC_OFFSET < e -> 0 <= clock w < e ->
     link w = false :: rest ->
     snd (TokenManager.blacklist_token t expires_in w)
       = add_log "Failed to blacklist token" ConnectionError (set_link rest w)) /\
  (forall e,
     well_signed t = true -> expiry t = Some e -> e ≠ 0 ->
     clock w + UTC_OFFSET < e -> e <= clock w ->
     snd (TokenManager.blacklist_token t expires_in w) = w).
Proof.
  split; [apply (blacklist_token_frame t expires_in w "")|]. split.
  - intros e rest Hs He Hepoch Ht Hl. unfold TokenManager.blacklist_token, try_except.
    unfold bind at 1. rewrite (decode_verified t e) by done.
    assert (jwt.expired e (clock w + UTC_OFFSET) = false) as ->
      by (unfold jwt.expired; destruct expired_at_exp; lia).
    unfold expiry in He. unfold py_get.
    destruct (token_claims t !! "exp") as [[| |n|]|]; try done.
    injection He as ->. simpl.
    assert ((e =? 0) = false) as -> by lia. simpl.
    unfold bind, utcnow_timestamp.
    assert ((0 <? e - clock w) = true) as -> by lia.
    unfold Redis.setex. by rewrite (command_down _ _ rest).
  - intros e Hs He Hne Hepoch Ht. by rewrite (blacklist_token_behind t e).
Qed.

(** X9. A token without [exp] is recorded for [expires_in] seconds, or for
    an hour when none (or zero) is given; once that time is over the
    record is gone while the token itself never expires. *)
Theorem blacklist_token_without_exp (t : jwt.token) (expires_in : option Z) (w w' : world) :
  well_signed t = true -> token_claims t !! "exp" = None -> link w = [] ->
  let ttl := match expires_in with
             | Some n => if n =? 0 then 3600 else n
             | None => 3600
             end in
  0 < ttl ->
  db w' = db (snd (TokenManager.blacklist_token t expires_in w)) ->
  (clock w <= clock w' < clock w + ttl -> revoked w' t = true) /\
  (clock w + ttl <= clock w' -> revoked w' t = false /\ verifies (clock w') t = true).
Proof.
  intros Hs Hexp Hl ttl Httl Hdb.
  assert (TokenManager.blacklist_token t expires_in w =
          (Ret tt, set_db (<[TokenManager.blacklist_key (token_claims t) t :=
                               Entry (RStr "1") (Some (clock w + ttl))]> (db w)) w)) as Hrun.
  { unfold TokenManager.blacklist_token, try_except. unfold bind at 1.
    destruct t as [j|s]; [|done]. simpl in *. rewrite Hs. cbn [negb]. rewrite Hexp.
    unfold ret, py_get. rewrite Hexp. cbn [default truthy from_option].
    fold ttl. unfold Redis.setex. rewrite command_healthy by done. cbn [fst snd].
    assert ((ttl <=? 0) = false) as -> by lia. done. }
  rewrite Hrun in Hdb. cbn [snd db set_db] in Hdb. unfold revoked. rewrite Hdb.
  split; intros Ht.
  - rewrite fetch_insert_eq; [by apply bool_decide_eq_true_2|].
    unfold Redis.live. simpl. lia.
  - split.
    + apply bool_decide_eq_false_2. unfold Redis.fetch. rewrite lookup_insert_eq.
      assert (Redis.live (clock w') (Entry (RStr "1") (Some (clock w + ttl))) = false) as ->
        by (unfold Redis.live; simpl; lia).
      by intros [? ?].
    + unfold verifies. by rewrite Hs, Hexp.
Qed.

(** X10. With a [jti] the reach of a revocation is the token itself: when
    two tokens carry different non-empty [jti] texts, revoking the one
    changes nothing about whether the other is blacklisted. *)
Theorem blacklist_confined_by_jti (A B : jwt.token) (ja jb : string)
    (expires_in : option Z) (w : world) :
  py_get (token_claims A) "jti" = PStr ja ->
  py_get (token_claims B) "jti" = PStr jb ->
  ja ≠ "" -> jb ≠ "" -> ja ≠ jb ->
  let w' := snd (TokenManager.blacklist_token A expires_in w) in
  revoked w' B = revoked w B.
Proof.
  intros Ha Hb Hna Hnb Hne. cbn zeta.
  assert (forall T j, py_get (token_claims T) "jti" = PStr j -> j ≠ "" ->
            TokenManager.blacklist_key (token_claims T) T = "blacklist:" +:+ j) as Hkey.
  { intros T j Hj Hn. unfold TokenManager.blacklist_key, py_or. rewrite Hj. simpl.
    by apply String.eqb_neq in Hn as ->. }
  destruct (blacklist_token_frame A expires_in w (TokenManager.blacklist_key (token_claims B) B))
    as (_ & Hclock & Hframe).
  unfold revoked, Redis.fetch. rewrite Hclock, Hframe; [done|].
  rewrite (Hkey A ja), (Hkey B jb) by done. intros Heq.
  apply Hne. symmetry. by simplify_eq.
Qed.

End RevocationReach.

(** ** Sessions from creation to logout *)

Section SessionLife.

Context `{Env}.

(** A command that only reads leaves the database as it is. *)
Lemma command_reads {A} (f : Z -> redis_db -> outcome A * redis_db) (w : world) :
  (forall now d, snd (f now d) = d) -> db (snd (Redis.command f w)) = db w.
Proof.
  intros Hf. unfold Redis.command.
  destruct (link w) as [|[] rest]; try done;
    specialize (Hf (clock w) (db w)); by destruct (f (clock w) (db w)).
Qed.

(** The store takes no float as a time to live: such a SETEX fails, with
    the refusal of the store or, when it cannot be reached, with the
    connection error, and writes nothing. *)
Lemma setex_float (k : string) (x : Z) (v : rvalue) (w : world) :
  exists e w',
    Redis.setex k (PyFloat x) v w = (Raise e, w') /\ db w' = db w /\
    (e = ResponseError "value is not an integer or out of range" \/ e = ConnectionError) /\
    (link w = [] -> e = ResponseError "value is not an integer or out of range").
Proof.
  unfold Redis.setex, Redis.command.
  destruct (link w) as [|[] rest]; eexists _, _; (split; [reflexivity|]);
    cbn [db set_db set_link]; auto.
  split; [done|]. split; [by right|done].
Qed.

(** X11. No session can be created: [create_session] hands the store
    [timedelta(hours=24).total_seconds()], a float, as the time to live,
    and the store takes whole seconds only. For every user, every session
    data and every state of the store the call raises, with the refusal of
    the store whenever the store is reached, and nothing is stored: no
    session id is ever returned. *)
Theorem create_session_always_fails (uuid user_id : string) (session_data : pydict)
    (w : world) :
  exists e w',
    SessionManager.create_session uuid user_id session_data w = (Raise e, w') /\
    db w' = db w /\
    (e = ResponseError "value is not an integer or out of range" \/ e = ConnectionError) /\
    (link w = [] -> e = ResponseError "value is not an integer or out of range").
Proof.
  unfold SessionManager.create_session. unfold bind at 1. unfold utcnow_timestamp.
  unfold bind at 1. unfold SessionManager.SESSION_TTL.
  match goal with |- context [Redis.setex ?k (PyFloat ?x) ?v w] =>
    destruct (setex_float k x v w) as (e & w' & -> & Hdb & He & Hup) end.
  by exists e, w'.
Qed.

(** What [get_session] does for every state of the store and of the
    connection: it never writes, and what it returns is [None]. *)
Lemma get_session_inert (sid : string) (w : world) :
  db (snd (SessionManager.get_session sid w)) = db w /\
  (forall r, fst (SessionManager.get_session sid w) = Ret r -> r = None).
Proof.
  destruct (SessionManager.get_session sid w) as [o w'] eqn:Hrun. cbn [fst snd].
  unfold SessionManager.get_session in Hrun. unfold bind at 1 in Hrun.
  unfold Redis.get in Hrun.
  match type of Hrun with context [Redis.command ?f w] =>
    assert (db (snd (Redis.command f w)) = db w) as Hread
      by (apply command_reads; intros now d0;
          by destruct (Redis.fetch now d0 _) as [[[]]|]);
    destruct (Redis.command f w) as [[[[s|d|z]|]|e] w1] end;
    cbn [fst snd] in *.
  - destruct (String.eqb s ""); injection Hrun as <- <-; split; try done.
    by intros r [= <-].
  - unfold bind at 1 in Hrun. unfold utcnow_timestamp in Hrun.
    unfold bind at 1 in Hrun. unfold SessionManager.SESSION_TTL in Hrun.
    match type of Hrun with context [Redis.setex ?k (PyFloat ?x) ?v w1] =>
      destruct (setex_float k x v w1) as (e & w2 & Hset & Hdb & _) end.
    rewrite Hset in Hrun. injection Hrun as <- <-. split; [congruence|done].
  - injection Hrun as <- <-. by split.
  - injection Hrun as <- <-. split; [done|]. by intros r [= <-].
  - injection Hrun as <- <-. by split.
Qed.

(** X12. [get_session] never returns a session and never moves an expiry:
    whatever the store holds and whether it answers, the store is as
    before and the only value returned is [None]. With the store
    answering, a read that finds no session returns [None], and a read
    that finds one raises the refusal of the store, because the write that
    is to move the expiry by 24 hours passes a float. *)
Theorem get_session_never_returns_session (sid : string) (w : world) :
  db (snd (SessionManager.get_session sid w)) = db w /\
  (forall d, fst (SessionManager.get_session sid w) ≠ Ret (Some d)) /\
  (link w = [] ->
   SessionManager.get_session sid w =
     match Redis.fetch (clock w) (db w) ("session:" +:+ sid) with
     | None => (Ret None, w)
     | Some (Entry (RJson d) _) =>
         (Raise (ResponseError "value is not an integer or out of range"), w)
     | Some (Entry (RStr s) _) =>
         if String.eqb s "" then (Ret None, w) else (Raise ValueError, w)
     | Some (Entry (RZSet _) _) => (Raise Redis.WRONGTYPE, w)
     end).
Proof.
  destruct (get_session_inert sid w) as [Hdb Hnone].
  split; [done|]. split.
  - intros d Hd. by specialize (Hnone _ Hd).
  - apply get_session_run.
Qed.

Lemma logout_run (uuid : string) (u : AuthUser) (w : world) :
  link w = [] ->
  logout uuid u w =
    (Ret (mkApiResponse true (JDict [("message", JStr "Successfully logged out")])
            (clock w) uuid),
     if truthy (session_id u)
     then set_db (delete ("session:" +:+ py_str (session_id u)) (db w)) w
     else w).
Proof.
  intros Hl. unfold logout. destruct (truthy (session_id u)); [|done].
  unfold SessionManager.delete_session, Redis.delete. redis_step. done.
Qed.


(** X14. Logout does not revoke: whether a token is blacklisted is the
    same after [logout] as before, for every token and whatever the store
    does; and for a user without a session [logout] changes nothing at
    all, so the token that was used stays valid until it expires. *)
Theorem logout_never_revokes (uuid : string) (u : AuthUser) (t : jwt.token) (w : world) :
  revoked (snd (logout uuid u w)) t = revoked w t /\
  (truthy (session_id u) = false -> snd (logout uuid u w) = w).
Proof.
  split.
  - unfold logout. destruct (truthy (session_id u)); [|done].
    unfold SessionManager.delete_session, Redis.delete.
    unfold bind at 1.
    match goal with |- context [Redis.command ?f w] =>
      pose proof (command_frame f w (TokenManager.blacklist_key (token_claims t) t)) as Hf;
      destruct (command_quiet f w) as (Hc & _);
      destruct (Redis.command f w) as [[[]|e] w1] end; cbn [fst snd] in *.
    + unfold revoked, Redis.fetch. cbn [bind utcnow_timestamp ret snd clock db].
      rewrite Hc, Hf; [done|]. intros now d0. cbn [snd].
      apply lookup_delete_ne. unfold TokenManager.blacklist_key. done.
    + unfold revoked, Redis.fetch. rewrite Hc, Hf; [done|]. intros now d0. cbn [snd].
      apply lookup_delete_ne. unfold TokenManager.blacklist_key. done.
  - intros Hsid. unfold logout. by rewrite Hsid.
Qed.

End SessionLife.

(** ** Who is let in *)

Section Authorization.

Context `{Env}.

Lemma is_token_blacklisted_false (t : jwt.token) (w w1 : world) :
  TokenManager.is_token_blacklisted t w = (Ret false, w1) ->
  well_signed t = true /\ revoked w t = false /\ clock w1 = clock w.
Proof.
  destruct (well_signed t) eqn:Hs.
  2:{ by rewrite is_token_blacklisted_unsigned. }
  destruct (link w) as [|[] rest] eqn:Hl.
  - rewrite is_token_blacklisted_up by auto. unfold revoked. by intros [= -> <-].
  - rewrite is_token_blacklisted_up by eauto. unfold revoked. by intros [= -> <-].
  - by rewrite (is_token_blacklisted_down _ _ rest).
Qed.

(** What holds of a token and of the user when [get_current_user] returns. *)
Lemma get_current_user_returns (t : jwt.token) (w w' : world) (u : AuthUser) :
  get_current_user t w = (Ret u, w') ->
  let c := token_claims t in
  (well_signed t = true /\ revoked w t = false /\ verifies (clock w) t = true /\
   py_eq (py_get c "type") (PStr "access") = true) /\
  u = mkAuthUser (py_get c "sub") (py_get c "email") (py_get c "role")
        (role_permissions (py_get c "role")) (py_get c "session_id")
        (filter (fun kv : string * pyval => kv.1 ∉ consumed_claims) c) /\
  truthy (user_id u) = true /\ truthy (email u) = true /\ truthy (role u) = true.
Proof.
  intros Hg c. unfold get_current_user in Hg. unfold bind at 1 in Hg.
  destruct (TokenManager.is_token_blacklisted t w) as [[[]|e] w1] eqn:Hb; try done.
  apply is_token_blacklisted_false in Hb as (Hs & Hrev & Hc).
  unfold bind at 1 in Hg.
  destruct (TokenManager.verify_token t w1) as [[p|e] w2] eqn:Hv; [|done].
  apply verify_token_returns in Hv as (-> & -> & Hver). fold c in Hg.
  destruct (py_eq (py_get c "type") (PStr "access")) eqn:Hty; [|done]. cbn [negb] in Hg.
  destruct (truthy (py_get c "sub")) eqn:Hsub; [|done].
  destruct (truthy (py_get c "email")) eqn:Hem; [|done].
  destruct (truthy (py_get c "role")) eqn:Hro; [|done].
  cbn [negb orb] in Hg. unfold bind at 1 in Hg.
  match type of Hg with (let (_, _) := ?m w1 in _) = _ =>
    destruct (m w1) as [[[]|e] w3]; [|done] end.
  unfold AuthUser_init in Hg. destruct (existsb _ _); [done|].
  injection Hg as <- <-. rewrite <- Hc. by cbn [user_id email role].
Qed.

(** X15. Authentication is sound whatever the store does: when
    [get_current_user] returns a user, the token is signed with the secret,
    not expired, of type access and not recorded as revoked, and the user
    carries the subject, email and role of the token and exactly the
    permissions the role table gives that role. *)
Theorem get_current_user_sound (t : jwt.token) (w : world) (u : AuthUser) :
  fst (get_current_user t w) = Ret u ->
  well_signed t = true /\ verifies (clock w) t = true /\ revoked w t = false /\
  py_get (token_claims t) "type" = PStr "access" /\
  user_id u = py_get (token_claims t) "sub" /\
  email u = py_get (token_claims t) "email" /\
  role u = py_get (token_claims t) "role" /\
  permissions u = role_permissions (role u).
Proof.
  destruct (get_current_user t w) as [o w'] eqn:Hg. cbn [fst]. intros ->.
  apply get_current_user_returns in Hg as ((Hs & Hrev & Hv & Hty) & -> & _).
  repeat split; try done.
  by destruct (py_get (token_claims t) "type") as [| | |s]; try done;
    apply String.eqb_eq in Hty as ->.
Qed.

Lemma py_eq_PStr (v : pyval) (s : string) : py_eq v (PStr s) = true <-> v = PStr s.
Proof.
  destruct v as [| | |s']; simpl; try (split; [done|by intros [=]]).
  rewrite String.eqb_eq. split; [by intros ->|by intros [= ->]].
Qed.

(** The roles that the table grants the two permissions the services ask
    for by name. *)
Lemma grants_create_tournament (r : pyval) :
  existsb (String.eqb Permission.CREATE_TOURNAMENT) (role_permissions r)
  = existsb (fun x => py_eq r (PStr x)) [UserRole.ADMIN; UserRole.TOURNAMENT_MANAGER].
Proof.
  destruct r as [| | |s]; try done.
  unfold role_permissions, ROLE_PERMISSIONS. cbn [find fst snd existsb py_eq].
  rewrite (String.eqb_sym s UserRole.ADMIN), (String.eqb_sym s UserRole.TOURNAMENT_MANAGER).
  repeat (match goal with |- context [String.eqb ?a s] =>
            destruct (String.eqb_spec a s) as [<-|?]; [reflexivity|] end).
  reflexivity.
Qed.

Lemma grants_view_audit (r : pyval) :
  existsb (String.eqb Permission.VIEW_AUDIT_LOGS) (role_permissions r)
  = existsb (fun x => py_eq r (PStr x)) [UserRole.ADMIN; UserRole.TOURNAMENT_MANAGER].
Proof.
  destruct r as [| | |s]; try done.
  unfold role_permissions, ROLE_PERMISSIONS. cbn [find fst snd existsb py_eq].
  rewrite (String.eqb_sym s UserRole.ADMIN), (String.eqb_sym s UserRole.TOURNAMENT_MANAGER).
  repeat (match goal with |- context [String.eqb ?a s] =>
            destruct (String.eqb_spec a s) as [<-|?]; [reflexivity|] end).
  reflexivity.
Qed.

(** X16. Creating a tournament is for administrators and tournament
    managers: [require_permission] with [tournament:create], the guard of
    the tournament service, lets a resolved user through exactly when
    [require_any_role] with these two roles does, and otherwise raises 403;
    a token that does not resolve is refused as by [get_current_user]. *)
Theorem create_tournament_guard (t : jwt.token) (w : world) :
  match get_current_user t w with
  | (Ret u, w') =>
      require_permission Permission.CREATE_TOURNAMENT t w =
        (if has_any_role u [UserRole.ADMIN; UserRole.TOURNAMENT_MANAGER]
         then (Ret u, w')
         else (Raise (HTTPException HTTP_403_FORBIDDEN
                        "Permission 'tournament:create' required"), w')) /\
      fst (require_any_role [UserRole.ADMIN; UserRole.TOURNAMENT_MANAGER] t w) =
        (if has_any_role u [UserRole.ADMIN; UserRole.TOURNAMENT_MANAGER]
         then Ret u
         else Raise (HTTPException HTTP_403_FORBIDDEN
                       "One of roles ['admin', 'tournament_manager'] required"))
  | (Raise e, w') =>
      require_permission Permission.CREATE_TOURNAMENT t w = (Raise e, w')
  end.
Proof.
  destruct (get_current_user t w) as [[u|e] w'] eqn:Hg.
  - unfold require_permission, require_any_role, bind. rewrite Hg.
    apply get_current_user_returns in Hg as (_ & -> & _).
    unfold has_permission, has_any_role. cbn [permissions role].
    rewrite grants_create_tournament. split; by destruct (existsb _ _).
  - unfold require_permission, bind. by rewrite Hg.
Qed.

(** X17. The role guards let a user through by the role alone:
    [require_any_role] returns a user exactly when [get_current_user]
    returns that user and the role is one of the listed ones, and
    [require_role] does so for its single role. *)
Theorem role_guards_admit_by_role (roles : list string) (r : string)
    (t : jwt.token) (w : world) (u : AuthUser) :
  (fst (require_any_role roles t w) = Ret u <->
   fst (get_current_user t w) = Ret u /\ exists x, x ∈ roles /\ role u = PStr x) /\
  (fst (require_role r t w) = Ret u <->
   fst (get_current_user t w) = Ret u /\ role u = PStr r).
Proof.
  unfold require_any_role, require_role, bind.
  destruct (get_current_user t w) as [[u'|e] w'] eqn:Hg; cbn [fst].
  2:{ split; split; try done; by intros [? _]. }
  split.
  - unfold has_any_role. destruct (existsb _ roles) eqn:Hex; cbn [negb fst].
    + apply existsb_exists in Hex as (x & Hin & Hx%py_eq_PStr).
      split; [intros [= <-]|by intros [? _]].
      split; [done|]. exists x. split; [by apply list_elem_of_In|done].
    + split; [done|]. intros [[= <-] (x & Hin & Hx)].
      assert (existsb (fun r0 => py_eq (role u') (PStr r0)) roles = true) as Hex'.
      { apply existsb_exists. exists x. split; [by apply list_elem_of_In|].
        by apply py_eq_PStr. }
      by rewrite Hex' in Hex.
  - unfold has_role. destruct (py_eq (role u') (PStr r)) eqn:Heq; cbn [negb fst].
    + apply py_eq_PStr in Heq. split; [by intros [= <-]|by intros [? _]].
    + split; [done|]. intros [[= <-] Hr%py_eq_PStr]. by rewrite Hr in Heq.
Qed.

(** X18. The audit log is for administrators and tournament managers: for
    a user of any other role [audit_proxy] raises 403 once the token is
    resolved and sends nothing downstream, whatever the downstream client
    would do; a token that does not resolve is refused as by
    [get_current_user]. *)
Theorem audit_proxy_forbidden (http_client : Outbound -> M ServiceResponse)
    (t : jwt.token) (path : string) (request : Request) (w : world) :
  match get_current_user t w with
  | (Ret u, w') =>
      has_any_role u [UserRole.ADMIN; UserRole.TOURNAMENT_MANAGER] = false ->
      Gateway.audit_proxy http_client t path request w =
        (Raise (HTTPException HTTP_403_FORBIDDEN "Insufficient permissions"), w')
  | (Raise e, w') =>
      Gateway.audit_proxy http_client t path request w = (Raise e, w')
  end.
Proof.
  destruct (get_current_user t w) as [[u|e] w'] eqn:Hg.
  - unfold Gateway.audit_proxy, bind. rewrite Hg.
    apply get_current_user_returns in Hg as (_ & -> & _).
    unfold has_permission, has_any_role. cbn [permissions role].
    change "system:view_audit" with Permission.VIEW_AUDIT_LOGS.
    rewrite grants_view_audit. by intros ->.
  - unfold Gateway.audit_proxy, bind. by rewrite Hg.
Qed.

End Authorization.

(** ** A request through the gateway when the downstream fails *)

Section Pipeline.

Context `{Env}.

(** A request without a resolved user goes downstream with text headers
    only. *)
Lemma forward_headers_text (request : Request) :
  map_Forall (fun _ v => is_Some (Gateway.header_text v))
             (Gateway.forward_headers request None).
Proof.
  intros k v. unfold Gateway.forward_headers. rewrite pop_all_lookup.
  destruct (bool_decide _); [done|].
  intros [[_ <-]|[_ Hk]]%lookup_insert_Some; [by eexists|].
  apply lookup_insert_Some in Hk as [[_ <-]|[_ Hk]]; [by eexists|].
  apply lookup_fmap_Some in Hk as (s & <- & _). by eexists.
Qed.

(** The middleware around an admitted request. *)
Lemma request_middleware_admitted (uuid : string) (request : Request)
    (call_next : Request -> M Response) (w w1 : world) :
  RateLimiter.check_rate_limit (rate_limit_key request) 100 60 w = (Ret true, w1) ->
  Gateway.request_middleware uuid request call_next w =
    match call_next (set_request_id uuid request) w1 with
    | (Ret r, w2) =>
        (Ret (JSONResponse (status_code r) (content r)
                (<["X-API-Version" := Gateway.VERSION]>
                   (<["X-Request-ID" := uuid]> (headers r)))),
         add_count (method request) (url_path request) (pretty (status_code r)) w2)
    | (Raise e, w2) =>
        (Ret (JSONResponse HTTP_500_INTERNAL_SERVER_ERROR
                (JDict [("success", JBool false);
                        ("error", JDict [("code", JStr "INTERNAL_ERROR");
                                         ("message", JStr "Internal server error");
                                         ("details", JDict [("request_id", JStr uuid)])]);
                        ("request_id", JStr uuid)])
                ∅),
         add_count (method request) (url_path request) "500"
           (add_log ("Request " +:+ uuid +:+ " failed") e w2))
    end.
Proof.
  intros Hcheck. unfold Gateway.request_middleware.
  change (client_host (set_request_id uuid request) +:+ ":" +:+
          Gateway.header_get "user-agent" "unknown" (set_request_id uuid request))
    with (rate_limit_key request).
  unfold bind at 1. rewrite Hcheck. cbn [negb].
  unfold try_except, bind.
  by destruct (call_next (set_request_id uuid request) w1) as [[r|e] w2].
Qed.

Lemma proxy_to_unreachable (http_client : Outbound -> M ServiceResponse)
    (request : Request) (service url path : string) (w : world) :
  SERVICE_URLS !! service = Some url -> url ≠ "" ->
  (forall o w0, http_client o w0 = (Raise RequestError, w0)) ->
  Gateway.proxy_to_service http_client request service path None w =
    (Raise (HTTPException HTTP_503_SERVICE_UNAVAILABLE
              ("Service '" +:+ service +:+ "' unavailable")),
     add_service_count service "error" (add_log "Service request failed" RequestError w)).
Proof.
  intros Hurl Hne Hdown. unfold Gateway.proxy_to_service. rewrite Hurl.
  apply String.eqb_neq in Hne as ->.
  rewrite (bool_decide_eq_true_2 _ (forward_headers_text request)).
  unfold try_except. unfold bind at 1. by rewrite Hdown.
Qed.

Lemma proxy_to_garbled (http_client : Outbound -> M ServiceResponse)
    (request : Request) (service url path : string) (w : world)
    (code : Z) (hdrs : gmap string string) (text : string) :
  SERVICE_URLS !! service = Some url -> url ≠ "" ->
  (forall o w0, http_client o w0 = (Ret (mkServiceResponse code hdrs (OtherText text)), w0)) ->
  Gateway.proxy_to_service http_client request service path None w =
    (Raise ValueError, add_service_count service (pretty code) w).
Proof.
  intros Hurl Hne Hanswer. unfold Gateway.proxy_to_service. rewrite Hurl.
  apply String.eqb_neq in Hne as ->.
  rewrite (bool_decide_eq_true_2 _ (forward_headers_text request)).
  unfold try_except. unfold bind at 1. unfold bind at 1. by rewrite Hanswer.
Qed.

(** X19. An unreachable service, end to end: when the transport to the
    tournament service fails for an admitted request without credentials,
    the caller gets 503 with the error envelope naming the service and the
    request id, and the headers [X-Request-ID] and [X-API-Version]; the
    failure is logged once, the service counter gets the label error and
    the request counter 503. *)
Theorem unreachable_service_answer (http_client : Outbound -> M ServiceResponse)
    (uuid path url : string) (request : Request) (w w1 : world) :
  RateLimiter.check_rate_limit (rate_limit_key request) 100 60 w = (Ret true, w1) ->
  SERVICE_URLS !! "tournament" = Some url -> url ≠ "" ->
  (forall o w0, http_client o w0 = (Raise RequestError, w0)) ->
  Gateway.request_middleware uuid request
      (Gateway.route (Gateway.tournament_proxy http_client None path)) w =
    (Ret (JSONResponse HTTP_503_SERVICE_UNAVAILABLE
            (JDict [("success", JBool false);
                    ("error", JDict [("code", JStr "HTTP_ERROR");
                                     ("message", JStr "Service 'tournament' unavailable")]);
                    ("request_id", JStr uuid)])
            (<["X-API-Version" := Gateway.VERSION]> (<["X-Request-ID" := uuid]> ∅))),
     add_count (method request) (url_path request) "503"
       (add_service_count "tournament" "error"
          (add_log "Service request failed" RequestError w1))).
Proof.
  intros Hcheck Hurl Hne Hdown.
  rewrite (request_middleware_admitted _ _ _ _ _ Hcheck).
  unfold Gateway.route, try_except, Gateway.tournament_proxy.
  unfold bind at 1. cbn [get_optional_user ret].
  by rewrite (proxy_to_unreachable _ _ _ url).
Qed.

(** X20. A downstream answer whose body is not JSON is not relayed: the
    caller of an admitted request gets the 500 fallback of the middleware
    with the request id, whatever the status the service answered with;
    the service counter records that status, the request counter 500, and
    the failure is logged under the request id. *)
Theorem garbled_service_answer (http_client : Outbound -> M ServiceResponse)
    (uuid path url : string) (request : Request) (w w1 : world)
    (code : Z) (hdrs : gmap string string) (text : string) :
  RateLimiter.check_rate_limit (rate_limit_key request) 100 60 w = (Ret true, w1) ->
  SERVICE_URLS !! "tournament" = Some url -> url ≠ "" ->
  (forall o w0, http_client o w0 = (Ret (mkServiceResponse code hdrs (OtherText text)), w0)) ->
  Gateway.request_middleware uuid request
      (Gateway.route (Gateway.tournament_proxy http_client None path)) w =
    (Ret (JSONResponse HTTP_500_INTERNAL_SERVER_ERROR
            (JDict [("success", JBool false);
                    ("error", JDict [("code", JStr "INTERNAL_ERROR");
                                     ("message", JStr "Internal server error");
                                     ("details", JDict [("request_id", JStr uuid)])]);
                    ("request_id", JStr uuid)])
            ∅),
     add_count (method request) (url_path request) "500"
       (add_log ("Request " +:+ uuid +:+ " failed") ValueError
          (add_service_count "tournament" (pretty code) w1))).
Proof.
  intros Hcheck Hurl Hne Hanswer.
  rewrite (request_middleware_admitted _ _ _ _ _ Hcheck).
  unfold Gateway.route, try_except, Gateway.tournament_proxy.
  unfold bind at 1. cbn [get_optional_user ret].
  by rewrite (proxy_to_garbled _ _ _ url _ _ code hdrs text).
Qed.

End Pipeline.

(** ** Login and the health check *)

Section EndpointProperties.

Context `{Env}.

Lemma login_run (uuid : string) (credentials : pydict) (w : world) :
  py_get credentials "email" = PStr "admin@tournament.com" ->
  py_get credentials "password" = PStr "admin123" ->
  let token_data : pydict :=
    <["role" := PStr "admin"]>
      (<["email" := PStr "admin@tournament.com"]> (<["sub" := PStr "admin-user-id"]> ∅)) in
  let claims kind lifetime : pydict :=
    <["type" := PStr kind]>
      (<["iat" := PInt (clock w + UTC_OFFSET)]>
         (<["exp" := PInt (clock w + UTC_OFFSET + lifetime)]> token_data)) in
  login uuid credentials w =
    (Ret (mkApiResponse true
            (mkLoginData
               (jwt.encode (claims "access" (JWT_ACCESS_TOKEN_EXPIRE_MINUTES * 60)) JWT_SECRET)
               (jwt.encode (claims "refresh" (JWT_REFRESH_TOKEN_EXPIRE_DAYS * 86400)) JWT_SECRET)
               "bearer"
               [("id", PStr "admin-user-id"); ("email", PStr "admin@tournament.com");
                ("role", PStr "admin")])
            (clock w) uuid), w).
Proof. intros Hem Hpw. unfold login. by rewrite Hem, Hpw. Qed.

(** The administrator holds every permission that any role holds. *)
Lemma admin_holds_all (r : pyval) (p : string) :
  In p (role_permissions r) ->
  existsb (String.eqb p) (role_permissions (PStr UserRole.ADMIN)) = true.
Proof.
  destruct r as [| | |s]; try done.
  unfold role_permissions at 1. unfold ROLE_PERMISSIONS. cbn [find fst snd].
  repeat (match goal with |- context [String.eqb ?a s] => destruct (String.eqb a s) end);
    cbn [snd In]; intros Hin;
    repeat (destruct Hin as [<-|Hin]; [reflexivity|]); done.
Qed.

(** X21. The tokens of a login: with the administrator's credentials
    [login] writes nothing and answers with an access token that, at every
    second of its lifetime, while it is not revoked and the store answers,
    resolves to the administrator, who passes every permission check that
    any role passes; the refresh token of the same answer never resolves. *)
Theorem login_tokens (uuid : string) (credentials : pydict) (w : world) :
  py_get credentials "email" = PStr "admin@tournament.com" ->
  py_get credentials "password" = PStr "admin123" ->
  exists r,
    login uuid credentials w = (Ret r, w) /\
    success r = true /\ login_token_type (data r) = "bearer" /\
    (forall w2,
       link w2 = [] -> revoked w2 (login_access_token (data r)) = false ->
       clock w2 < clock w + JWT_ACCESS_TOKEN_EXPIRE_MINUTES * 60 ->
       exists u,
         get_current_user (login_access_token (data r)) w2 = (Ret u, w2) /\
         user_id u = PStr "admin-user-id" /\
         email u = PStr "admin@tournament.com" /\
         role u = PStr UserRole.ADMIN /\
         forall role p, In p (role_permissions role) -> has_permission u p = true) /\
    (forall w2, exists detail,
       fst (get_current_user (login_refresh_token (data r)) w2)
         = Raise (HTTPException HTTP_401_UNAUTHORIZED detail)).
Proof.
  intros Hem Hpw. rewrite login_run by done. cbn zeta.
  eexists. split; [reflexivity|].
  cbn [success data login_token_type login_access_token login_refresh_token].
  repeat split.
  - intros w2 Hl Hrev Ht. eexists. split.
    + apply encoded_access_resolves; try done. lia.
    + cbn [user_id email role]. repeat split. intros r p Hin.
      unfold has_permission. cbn [permissions]. by apply (admin_holds_all r).
  - intros w2.
    edestruct (encoded_refresh_refused
                 (<["type" := PStr "refresh"]>
                    (<["iat" := PInt (clock w + UTC_OFFSET)]>
                       (<["exp" := PInt (clock w + UTC_OFFSET
                                         + JWT_REFRESH_TOKEN_EXPIRE_DAYS * 86400)]>
                          (<["role" := PStr "admin"]>
                             (<["email" := PStr "admin@tournament.com"]>
                                (<["sub" := PStr "admin-user-id"]> ∅))))))
                 (clock w + UTC_OFFSET + JWT_REFRESH_TOKEN_EXPIRE_DAYS * 86400) w2)
      as (detail & w3 & Hg & _).
    + unfold py_get. by rewrite lookup_insert_eq.
    + do 2 (rewrite lookup_insert_ne by done). apply lookup_insert_eq.
    + exists detail. by rewrite Hg.
Qed.

(** X22. No other credentials get a token: [login] returns exactly for the
    one pair of email and password; without an email or a password it
    raises 400, with any other pair 401, and in no case is anything
    written. *)
Theorem login_one_account (uuid : string) (credentials : pydict) (w : world) :
  snd (login uuid credentials w) = w /\
  ((exists r, fst (login uuid credentials w) = Ret r) <->
   py_get credentials "email" = PStr "admin@tournament.com" /\
   py_get credentials "password" = PStr "admin123") /\
  (truthy (py_get credentials "email") = false \/
   truthy (py_get credentials "password") = false ->
   fst (login uuid credentials w) =
     Raise (HTTPException HTTP_400_BAD_REQUEST "Email and password required")) /\
  (truthy (py_get credentials "email") = true ->
   truthy (py_get credentials "password") = true ->
   ~ (py_get credentials "email" = PStr "admin@tournament.com" /\
      py_get credentials "password" = PStr "admin123") ->
   fst (login uuid credentials w) =
     Raise (HTTPException HTTP_401_UNAUTHORIZED "Invalid credentials")).
Proof.
  unfold login.
  destruct (truthy (py_get credentials "email")) eqn:Hte; cbn [negb orb].
  2:{ split; [done|]. split; [|by split].
      split; [by intros [? ?]|]. intros [He _]. by rewrite He in Hte. }
  destruct (truthy (py_get credentials "password")) eqn:Htp; cbn [negb orb].
  2:{ split; [done|]. split; [|by split].
      split; [by intros [? ?]|]. intros [_ Hp]. by rewrite Hp in Htp. }
  destruct (py_eq (py_get credentials "email") (PStr "admin@tournament.com")) eqn:He;
    cbn [andb].
  2:{ split; [done|]. split; [|split; [by intros [?|?]|done]].
      split; [by intros [? ?]|]. intros [He' _]. apply py_eq_PStr in He'.
      by rewrite He' in He. }
  destruct (py_eq (py_get credentials "password") (PStr "admin123")) eqn:Hp.
  2:{ split; [done|]. split; [|split; [by intros [?|?]|done]].
      split; [by intros [? ?]|]. intros [_ Hp']. apply py_eq_PStr in Hp'.
      by rewrite Hp' in Hp. }
  apply py_eq_PStr in He, Hp.
  split; [done|]. split; [split; [done|by eexists]|].
  split; [by intros [?|?]|]. intros _ _ Hn. by destruct Hn.
Qed.

(** X23. The health check always answers: whatever the database, the store
    and the services do, [health_check] returns a report. Its status is
    healthy exactly when every entry of [services] is up; each configured
    service is up exactly when its probe answered 200; a database that
    cannot be reached, or a store that cannot, is reported down and makes
    the status unhealthy. *)
Theorem health_check_reports (env : string) (connect : M unit)
    (probe : string -> outcome Z) (w : world) :
  exists h w',
    health_check env connect probe w = (Ret h, w') /\
    version h = Gateway.VERSION /\ environment h = env /\
    (status h = "healthy" <-> forall name up, services h !! name = Some up -> up = true) /\
    (status h ≠ "healthy" -> status h = "unhealthy") /\
    (forall name url,
       SERVICE_URLS !! name = Some url ->
       services h !! name = Some match probe (url +:+ "/health") with
                                 | Ret code => code =? 200
                                 | Raise _ => false
                                 end) /\
    (forall e, fst (connect w) = Raise e -> SERVICE_URLS !! "database" = None ->
               services h !! "database" = Some false /\ status h = "unhealthy") /\
    (forall rest, link (snd (connect w)) = false :: rest ->
                  SERVICE_URLS !! "redis" = None ->
                  services h !! "redis" = Some false /\ status h = "unhealthy").
Proof.
  set (checked := (fun service_url : string =>
                     match probe (service_url +:+ "/health") with
                     | Ret code => code =? 200
                     | Raise _ => false
                     end) <$> SERVICE_URLS).
  assert (forall database redis now,
    let services := checked ∪ <["redis" := redis]> (<["database" := database]> ∅) in
    let h := mkHealthCheck
               (if bool_decide (map_Forall (fun _ up => up = true) services)
                then "healthy" else "unhealthy") now Gateway.VERSION env services in
    (status h = "healthy" <-> forall name up, services !! name = Some up -> up = true) /\
    (status h ≠ "healthy" -> status h = "unhealthy") /\
    (forall name url,
       SERVICE_URLS !! name = Some url ->
       services !! name = Some match probe (url +:+ "/health") with
                               | Ret code => code =? 200
                               | Raise _ => false
                               end) /\
    (database = false -> SERVICE_URLS !! "database" = None ->
     services !! "database" = Some false /\ status h = "unhealthy") /\
    (redis = false -> SERVICE_URLS !! "redis" = None ->
     services !! "redis" = Some false /\ status h = "unhealthy")) as Hreport.
  { intros database redis now services h.
    assert (forall name, services !! name = Some false -> status h = "unhealthy") as Hdown.
    { intros name Hn. unfold h. cbn [status]. case_bool_decide as Hall; [|done].
      by specialize (Hall name false Hn). }
    assert (forall name, SERVICE_URLS !! name = None ->
              services !! name
              = (<["redis" := redis]> (<["database" := database]> (∅ : gmap string bool)))
                  !! name)
      as Hrest.
    { intros name Hn. unfold services. apply lookup_union_r.
      unfold checked. by rewrite lookup_fmap, Hn. }
    split; [split|].
    - unfold h. cbn [status]. by case_bool_decide.
    - intros Hall. unfold h. cbn [status]. by rewrite bool_decide_eq_true_2.
    - split; [unfold h; cbn [status]; by case_bool_decide|].
      split.
      { intros name url Hurl. unfold services. apply lookup_union_Some_l.
        unfold checked. by rewrite lookup_fmap, Hurl. }
      split.
      + intros -> Hn.
        assert (services !! "database" = Some false) as Hd
          by (rewrite Hrest by done; by rewrite lookup_insert_ne, lookup_insert_eq).
        split; [done|by apply (Hdown "database")].
      + intros -> Hn.
        assert (services !! "redis" = Some false) as Hr
          by (rewrite Hrest by done; by rewrite lookup_insert_eq).
        split; [done|by apply (Hdown "redis")]. }
  unfold health_check, db_health_check, redis_ping, try_except, bind, utcnow_timestamp,
    logger_error, ret, Redis.command.
  destruct (connect w) as [[[]|e] w1]; cbn [fst snd any_Exception];
    destruct (link w1) as [|[] rest] eqn:Hl; cbn [fst snd any_Exception link add_log];
    rewrite ?Hl; cbn [fst snd any_Exception];
    eexists _, _; (split; [reflexivity|]); fold checked;
    cbn [version environment services];
    match goal with |- context [mkHealthCheck _ ?now _ _ (checked ∪ <["redis" := ?r]> (<["database" := ?d]> ∅))] =>
      destruct (Hreport d r now) as (H1 & H2 & H3 & H4 & H5) end;
    repeat split; try done; try apply H1; try (intros; by apply H4); try (intros; by apply H5).
Qed.

End EndpointProperties.

(** ** The limiter at one call per second *)

Lemma fetch_None_later (now now' : Z) (d : redis_db) (k : string) :
  Redis.fetch now d k = None -> now <= now' -> Redis.fetch now' d k = None.
Proof.
  unfold Redis.fetch, Redis.live. destruct (d !! k) as [e|]; [|done].
  destruct (expires_at e) as [t|]; [|done]. intros Hf Hle.
  destruct (now <? t) eqn:Hlive; [done|].
  by assert ((now' <? t) = false) as -> by lia.
Qed.

Lemma paced_step (key : string) (limit window a : Z) (w : world) :
  paced key limit window a w -> a + 1 <= window ->
  let r := RateLimiter.check_rate_limit key limit window (set_clock (clock w + 1) w) in
  fst r = Ret (a <? limit) /\ paced key limit window (a + 1) (snd r).
Proof.
  intros (Hl & Ha & z & Hst & Hsz & Hdb) Hwin.
  set (k := "rate_limit:" +:+ key) in *.
  set (w0 := set_clock (clock w + 1) w).
  assert (entries w0 key = z /\ well_typed w0 key) as [Hent Hty].
  { unfold entries, well_typed. fold k. unfold w0. cbn [clock db set_clock].
    destruct Hdb as [[-> Hnone]|(ex & Hk & Hex)].
    - by rewrite (fetch_None_later _ (clock w + 1) _ _ Hnone) by lia.
    - unfold Redis.fetch, Redis.live. rewrite Hk. cbn [expires_at].
      assert ((clock w + 1 <? ex) = true) as -> by lia.
      split; [done|]. intros e [= <-]. by eexists. }
  assert (in_window (clock w0) window z = z) as Hin.
  { unfold in_window. apply map_filter_id. intros m s Hms.
    destruct (Hst m s Hms) as [_ Hs]. unfold w0. cbn [snd clock set_clock]. lia. }
  cbn zeta. fold w0. rewrite check_rate_limit_run by done. cbn [fst snd].
  rewrite Hent, Hin. split; [f_equal; lia|].
  unfold paced, window_db. fold k. rewrite Hent, Hin. unfold w0.
  cbn [link clock db set_db set_clock].
  split; [done|]. split; [lia|].
  destruct (limit <=? Z.of_nat (size z)) eqn:Hfull.
  - exists z. split; [intros m s Hms; destruct (Hst m s Hms); split; [done|lia]|].
    split; [lia|].
    destruct Hdb as [[-> Hnone]|(ex & Hk & Hex)].
    + rewrite (fetch_None_later _ (clock w + 1) _ _ Hnone) by lia.
      left. split; [done|]. by apply (fetch_None_later (clock w)); [|lia].
    + assert (Redis.fetch (clock w + 1) (db w) k = Some (Entry (RZSet z) (Some ex))) as ->.
      { unfold Redis.fetch, Redis.live. rewrite Hk. cbn [expires_at].
        by assert ((clock w + 1 <? ex) = true) as -> by lia. }
      destruct (decide (z = ∅)) as [->|Hne].
      * left. split; [done|apply fetch_delete_eq].
      * right. exists ex. split; [apply lookup_insert_eq|lia].
  - assert ((window <=? 0) = false) as -> by lia.
    assert (z !! pretty (clock w + 1) = None) as Hfresh.
    { destruct (z !! pretty (clock w + 1)) as [s|] eqn:Hs; [|done].
      destruct (Hst _ _ Hs) as [Heq Hle]. apply (inj pretty) in Heq. lia. }
    exists (<[pretty (clock w + 1) := clock w + 1]> z). split.
    { intros m s [[<- <-]|[_ Hms]]%lookup_insert_Some; [split; [done|lia]|].
      destruct (Hst m s Hms). split; [done|lia]. }
    split; [rewrite map_size_insert_None by done; lia|].
    right. exists (clock w + 1 + window). split; [apply lookup_insert_eq|lia].
Qed.

Lemma paced_calls (key : string) (limit window a : Z) (n i : nat) (w : world) :
  paced key limit window a w -> a + Z.of_nat n <= window -> (i < n)%nat ->
  fst (rate_limit_calls key limit window (repeat 1%nat n) w) !! i
    = Some (Ret (a + Z.of_nat i <? limit)).
Proof.
  revert a i w. induction n as [|n IH]; intros a i w Hp Hwin Hi; [lia|].
  cbn [repeat rate_limit_calls fst snd].
  change (Z.of_nat 1) with 1.
  destruct (paced_step key limit window a w Hp) as [Hr Hp']; [lia|].
  destruct i as [|i]; cbn [lookup list_lookup].
  - rewrite Hr. do 3 f_equal. lia.
  - rewrite (IH (a + 1) i) by (done || lia). do 3 f_equal. lia.
Qed.

(** X24. At one call per second the limiter does enforce the limit: of a
    series of calls one second apart that begins on an unused key and
    stays within one window, the first [limit] calls are accepted and
    every later one is rejected. *)
Theorem rate_limit_enforced_across_seconds (key : string) (limit window : Z)
    (n i : nat) (w : world) :
  link w = [] ->
  Redis.fetch (clock w) (db w) ("rate_limit:" +:+ key) = None ->
  Z.of_nat n <= window -> (i < n)%nat ->
  fst (rate_limit_calls key limit window (repeat 1%nat n) w) !! i
    = Some (Ret (Z.of_nat i <? limit)).
Proof.
  intros Hl Hnone Hwin Hi.
  rewrite (paced_calls key limit window 0 n i w); [done| |lia|done].
  split; [done|]. split; [lia|]. exists ∅. split; [done|].
  split; [rewrite map_size_empty; lia|]. by left.
Qed.

(** ** The headers that go downstream *)

Section ForwardedHeaders.

Context `{Env}.


End ForwardedHeaders.

(** ** A token bound to a session *)

Section SessionBoundToken.

Context `{Env}.

Lemma verify_token_world (t : jwt.token) (w : world) :
  snd (TokenManager.verify_token t w) = w.
Proof.
  unfold TokenManager.verify_token, try_except.
  destruct (jwt.decode t JWT_SECRET true w) as [[p|e] w'] eqn:Hd.
  - by apply decode_returns in Hd as [_ ->].
  - apply decode_raises in Hd as ->. by destruct e.
Qed.

(** Resolving a token reads the store and never writes to it. *)
Lemma get_current_user_reads (t : jwt.token) (w : world) :
  db (snd (get_current_user t w)) = db w.
Proof.
  destruct (get_current_user t w) as [o w'] eqn:Hg. cbn [snd].
  unfold get_current_user in Hg. unfold bind at 1 in Hg.
  destruct (is_token_blacklisted_total t w) as (b & w1 & Hb & Hdb1 & _).
  rewrite Hb in Hg. destruct b; [by injection Hg as <- <-|].
  unfold bind at 1 in Hg.
  pose proof (verify_token_world t w1) as Hw.
  destruct (TokenManager.verify_token t w1) as [[p|e] w2]; cbn [snd] in Hw; subst w2;
    [|by injection Hg as <- <-].
  destruct (negb (py_eq _ _)); [by injection Hg as <- <-|].
  destruct (_ || _); [by injection Hg as <- <-|].
  unfold bind at 1 in Hg.
  destruct (truthy (py_get p "session_id")).
  - unfold bind at 1 in Hg.
    destruct (get_session_inert (py_str (py_get p "session_id")) w1) as [Hdb2 _].
    destruct (SessionManager.get_session _ w1) as [[[d|]|e] w3]; cbn [snd] in Hdb2.
    + destruct (_ || _); unfold unauthorized, raise, ret in Hg.
      * injection Hg as <- <-. congruence.
      * unfold AuthUser_init in Hg. destruct (existsb _ _); injection Hg as <- <-; congruence.
    + injection Hg as <- <-. congruence.
    + injection Hg as <- <-. congruence.
  - unfold ret, AuthUser_init in Hg. destruct (existsb _ _); by injection Hg as <- <-.
Qed.

(** X26. A token that carries a session id never resolves: for every such
    token and every state of the store, [get_current_user] returns no
    user and leaves the store as it is. Without a session under the id the
    token is refused; with one, the touch of the session fails, because
    [get_session] hands the store a float as the time to live. *)
Theorem session_token_never_resolves (t : jwt.token) (w : world) :
  truthy (py_get (token_claims t) "session_id") = true ->
  (forall u, fst (get_current_user t w) ≠ Ret u) /\
  db (snd (get_current_user t w)) = db w.
Proof.
  intros Hsid. split; [|apply get_current_user_reads].
  intros u Hu. destruct (get_current_user t w) as [o w'] eqn:Hg. cbn [fst] in Hu. subst o.
  unfold get_current_user in Hg. unfold bind at 1 in Hg.
  destruct (TokenManager.is_token_blacklisted t w) as [[[]|e] w1] eqn:Hb; try done.
  unfold bind at 1 in Hg.
  destruct (TokenManager.verify_token t w1) as [[p|e] w2] eqn:Hv; [|done].
  apply verify_token_returns in Hv as (-> & -> & _).
  destruct (negb (py_eq _ _)); [done|].
  destruct (_ || _); [done|].
  rewrite Hsid in Hg. unfold bind at 1 2 in Hg.
  destruct (get_session_inert (py_str (py_get (token_claims t) "session_id")) w1)
    as [_ Hnone].
  destruct (SessionManager.get_session _ w1) as [[r|e] w3]; [|done].
  by rewrite (Hnone r eq_refl) in Hg.
Qed.

End SessionBoundToken.

(** ** The further properties at work *)

Section FurtherScenarios.
Local Existing Instance default_env.

Lemma check_rate_limit_touches_own_key_only_witness :
  let r := RateLimiter.check_rate_limit "10.0.0.7:curl/8.5" 100 60 with_session in
  db (snd r) !! "session:s-1" = db with_session !! "session:s-1" /\
  log (snd r) = log with_session /\ request_count (snd r) = request_count with_session.
Proof.
  apply (check_rate_limit_touches_own_key_only "10.0.0.7:curl/8.5" 100 60 with_session
           "session:s-1").
  discriminate.
Defined.

Lemma get_rate_limit_info_reports_witness :
  exists info,
    fst (RateLimiter.get_rate_limit_info "10.0.0.7:curl/8.5" 100 60 crowded) = Ret info /\
    RateLimiter.ri_remaining info = 0.
Proof.
  destruct (get_rate_limit_info_reports crowded "10.0.0.7:curl/8.5" 100 60)
    as (info & Hrun & _ & _ & _ & Hrem & _).
  - reflexivity.
  - apply (well_typed_sorted_set crowded "10.0.0.7:curl/8.5" hundred_members None).
    unfold crowded. cbn [db set_db]. apply lookup_insert_eq.
  - exists info. split; [exact Hrun|]. rewrite Hrem. vm_compute. reflexivity.
Defined.

Lemma throttled_request_response_witness :
  exists resp,
    fst (Gateway.request_middleware "req-1" get_tournaments
           (fun _ => ret (JSONResponse 200 JNull ∅)) crowded) = Ret resp /\
    status_code resp = HTTP_429_TOO_MANY_REQUESTS.
Proof.
  destruct (throttled_request_response "req-1" get_tournaments
              (fun _ => ret (JSONResponse 200 JNull ∅)) crowded)
    as (resp & Hrun & Hstatus & _).
  - reflexivity.
  - apply (well_typed_sorted_set crowded "10.0.0.7:curl/8.5" hundred_members None).
    unfold crowded. cbn [db set_db]. apply lookup_insert_eq.
  - vm_compute. discriminate.
  - exists resp. split; assumption.
Defined.

Lemma rate_limit_calls_never_reject_witness :
  Forall (fun r => r = Ret true)
         (fst (rate_limit_calls "10.0.0.7:curl/8.5" 100 60 [0; 0; 1; 0]%nat (boot 1000))).
Proof.
  apply (rate_limit_calls_never_reject "10.0.0.7:curl/8.5" 100 60 [0; 0; 1; 0]%nat (boot 1000)).
  - reflexivity.
  - intros e Hf. discriminate Hf.
  - simpl. lia.
  - intros m s Hms. discriminate Hms.
  - lia.
Defined.

Lemma access_token_verifies_until_expiry_witness :
  exists c, TokenManager.verify_token viewer_token (boot 2000) = (Ret c, boot 2000).
Proof.
  destruct (access_token_verifies_until_expiry (claims_of "user-1" "viewer") None
              (boot 1000) (boot 2000) viewer_token) as [Hbefore _].
  - reflexivity.
  - eexists. apply Hbefore. vm_compute. reflexivity.
Defined.

Lemma refresh_token_never_resolves_witness :
  exists detail w',
    get_current_user refresh_token (boot 100)
      = (Raise (HTTPException HTTP_401_UNAUTHORIZED detail), w') /\
    db w' = db (boot 100).
Proof.
  apply (refresh_token_never_resolves (claims_of "user-2" "player") (boot 50) (boot 100)).
  reflexivity.
Defined.

Lemma access_token_resolves_witness :
  fst (get_current_user viewer_token (boot 1500)) = Ret (viewer_user PNone).
Proof.
  rewrite (access_token_resolves (claims_of "user-1" "viewer") None (boot 1000) (boot 1500)
             viewer_token).
  - vm_compute. reflexivity.
  - reflexivity.
  - reflexivity.
  - reflexivity.
  - reflexivity.
  - reflexivity.
  - vm_compute. auto.
  - reflexivity.
  - vm_compute. reflexivity.
  - vm_compute. reflexivity.
Defined.

Lemma blacklist_token_never_blocks_witness :
  snd (TokenManager.blacklist_token viewer_token None (set_link [false] (boot 1000)))
  = add_log "Failed to blacklist token" ConnectionError
      (set_link [] (set_link [false] (boot 1000))) /\
  snd (@TokenManager.blacklist_token eastern_env eastern_token None (boot 20000))
  = boot 20000.
Proof.
  split.
  - destruct (blacklist_token_never_blocks viewer_token None (set_link [false] (boot 1000)))
      as (_ & Hdown & _).
    apply (Hdown 2800 []).
    + vm_compute. reflexivity.
    + vm_compute. reflexivity.
    + simpl. lia.
    + simpl. lia.
    + reflexivity.
  - destruct (@blacklist_token_never_blocks eastern_env eastern_token None (boot 20000))
      as (_ & _ & Hbehind).
    apply (Hbehind 3800).
    + vm_compute. reflexivity.
    + vm_compute. reflexivity.
    + lia.
    + simpl. lia.
    + simpl. lia.
Defined.

(** On the host five hours west of Greenwich the token of user-1, good for
    half an hour, is revoked right after it was made: nothing is recorded,
    and the token resolves as before. *)
Example eastern_revocation_without_effect :
  let w := snd (@TokenManager.blacklist_token eastern_env eastern_token None (boot 20000)) in
  w = boot 20000 /\
  match fst (@get_current_user eastern_env eastern_token w) with
  | Ret u => user_id u = PStr "user-1"
  | Raise _ => False
  end.
Proof. vm_compute. done. Qed.

Lemma blacklist_token_without_exp_witness :
  revoked (set_clock 2000 (snd (TokenManager.blacklist_token service_token None (boot 1000))))
          service_token = true.
Proof.
  destruct (blacklist_token_without_exp service_token None (boot 1000)
              (set_clock 2000 (snd (TokenManager.blacklist_token service_token None
                                      (boot 1000)))))
    as [Hrecorded _].
  - vm_compute. reflexivity.
  - vm_compute. reflexivity.
  - reflexivity.
  - lia.
  - reflexivity.
  - apply Hrecorded. simpl. lia.
Defined.

Lemma blacklist_confined_by_jti_witness :
  revoked (snd (TokenManager.blacklist_token (token_with_jti "a-1") None (boot 1000)))
          (token_with_jti "b-2")
  = revoked (boot 1000) (token_with_jti "b-2").
Proof.
  apply (blacklist_confined_by_jti (token_with_jti "a-1") (token_with_jti "b-2")
           "a-1" "b-2" None (boot 1000)).
  - vm_compute. reflexivity.
  - vm_compute. reflexivity.
  - discriminate.
  - discriminate.
  - discriminate.
Defined.


Lemma get_current_user_sound_witness :
  well_signed viewer_token = true /\ role (viewer_user PNone) = PStr "viewer".
Proof.
  destruct (get_current_user_sound viewer_token (boot 1500) (viewer_user PNone))
    as (Hsigned & _ & _ & _ & _ & _ & Hrole & _).
  - vm_compute. reflexivity.
  - split; [exact Hsigned|]. rewrite Hrole. vm_compute. reflexivity.
Defined.

Lemma audit_proxy_forbidden_witness :
  Gateway.audit_proxy unreachable viewer_token "" get_tournaments (boot 1500)
  = (Raise (HTTPException HTTP_403_FORBIDDEN "Insufficient permissions"), boot 1500).
Proof.
  pose proof (audit_proxy_forbidden unreachable viewer_token "" get_tournaments (boot 1500))
    as Hguard.
  assert (get_current_user viewer_token (boot 1500) = (Ret (viewer_user PNone), boot 1500))
    as Hresolved by (vm_compute; reflexivity).
  rewrite Hresolved in Hguard. apply Hguard. reflexivity.
Defined.

Lemma unreachable_service_answer_witness :
  exists resp w',
    Gateway.request_middleware "req-1" get_tournaments
      (Gateway.route (Gateway.tournament_proxy unreachable None "")) (boot 1000)
    = (Ret resp, w') /\
    status_code resp = HTTP_503_SERVICE_UNAVAILABLE.
Proof.
  eexists _, _. split.
  - apply (unreachable_service_answer unreachable "req-1" "" "http://tournament-api:8080"
             get_tournaments (boot 1000)
             (snd (RateLimiter.check_rate_limit (rate_limit_key get_tournaments) 100 60
                     (boot 1000)))).
    + vm_compute. reflexivity.
    + reflexivity.
    + discriminate.
    + intros o w0. reflexivity.
  - reflexivity.
Defined.

Lemma garbled_service_answer_witness :
  exists resp w',
    Gateway.request_middleware "req-1" get_tournaments
      (Gateway.route (Gateway.tournament_proxy garbled None "")) (boot 1000)
    = (Ret resp, w') /\
    status_code resp = HTTP_500_INTERNAL_SERVER_ERROR.
Proof.
  eexists _, _. split.
  - apply (garbled_service_answer garbled "req-1" "" "http://tournament-api:8080"
             get_tournaments (boot 1000)
             (snd (RateLimiter.check_rate_limit (rate_limit_key get_tournaments) 100 60
                     (boot 1000)))
             502 ∅ "<html>Bad Gateway</html>").
    + vm_compute. reflexivity.
    + reflexivity.
    + discriminate.
    + intros o w0. reflexivity.
  - reflexivity.
Defined.

Lemma login_tokens_witness :
  exists r, login "req-1" admin_credentials (boot 1000) = (Ret r, boot 1000) /\ success r = true.
Proof.
  destruct (login_tokens "req-1" admin_credentials (boot 1000)) as (r & Hrun & Hok & _).
  - reflexivity.
  - reflexivity.
  - exists r. split; assumption.
Defined.

Lemma rate_limit_enforced_across_seconds_witness :
  fst (rate_limit_calls "10.0.0.7:curl/8.5" 2 60 (repeat 1%nat 5) (boot 1000)) !! 3%nat
  = Some (Ret false).
Proof.
  apply (rate_limit_enforced_across_seconds "10.0.0.7:curl/8.5" 2 60 5 3 (boot 1000)).
  - reflexivity.
  - reflexivity.
  - simpl. lia.
  - lia.
Defined.


Lemma session_token_never_resolves_witness :
  db (snd (get_current_user session_token with_session)) = db with_session.
Proof.
  destruct (session_token_never_resolves session_token with_session) as [_ Hreads].
  - vm_compute. reflexivity.
  - exact Hreads.
Defined.

End FurtherScenarios.
